(** * ParvusServer: a shallow embedding of the request pipeline

    The development follows the TypeScript class [ParvusServer]: its
    constructor, [addMiddleware] with the route compiler [stringToRegex],
    [mergedMimeTypes], the request listener installed by [createServer],
    [defaultHandler], [socketInjection] and the socket.io connection
    callback.

    JavaScript strings are modelled by [string]; a character stands for one
    code unit below 256.  Methods that mutate the object or can throw are
    written in a state-and-completion monad: unlike a state transformer over
    a sum, a thrown exception keeps the mutations made before it, which is
    what JavaScript does. *)

From Stdlib Require Import String Ascii List Bool Arith ZArith Lia DecimalString.
Import ListNotations.
Set Warnings "-register-all".
Open Scope list_scope.
Open Scope string_scope.

(** ** Strings *)

(** The double quote and the line feed, which the page templates contain. *)
Definition dq : string := String (ascii_of_nat 34) EmptyString.
Definition nl : string := String (ascii_of_nat 10) EmptyString.

Definition LF : ascii := ascii_of_nat 10.
Definition CR : ascii := ascii_of_nat 13.

Fixpoint dropChars (n : nat) (s : string) : string :=
  match n, s with
  | O, _ => s
  | S n', String _ s' => dropChars n' s'
  | S _, EmptyString => EmptyString
  end.

(** [String.prototype.endsWith]. *)
Definition endsWith (s suffix : string) : bool :=
  String.eqb (dropChars (String.length s - String.length suffix) s) suffix
  && (String.length suffix <=? String.length s)%nat.

(** [String.prototype.replace] with a string pattern: only the first
    occurrence is replaced.  The source only ever passes the replacement
    [''], which has no [$] patterns. *)
Fixpoint replaceFirst (pat rep s : string) : string :=
  if String.prefix pat s then rep ++ dropChars (String.length pat) s
  else match s with
       | EmptyString => EmptyString
       | String c s' => String c (replaceFirst pat rep s')
       end.

Definition lowerChar (c : ascii) : ascii :=
  let n := nat_of_ascii c in
  if ((65 <=? n) && (n <=? 90))%nat then ascii_of_nat (n + 32) else c.

Fixpoint toLowerCase (s : string) : string :=
  match s with
  | EmptyString => EmptyString
  | String c s' => String (lowerChar c) (toLowerCase s')
  end.

(** JavaScript truthiness at the two optional types the class uses. *)
Definition truthyString (o : option string) : bool :=
  match o with
  | Some s => negb (String.eqb s EmptyString)
  | None => false
  end.

Definition truthyNumber (o : option Z) : bool :=
  match o with
  | Some n => negb (Z.eqb n 0)
  | None => false
  end.

(** [a || d] where [d] is a defined default. *)
Definition orString (a : option string) (d : string) : string :=
  match a with
  | Some s => if truthyString a then s else d
  | None => d
  end.

Definition orNumber (a : option Z) (d : Z) : Z :=
  match a with
  | Some n => if truthyNumber a then n else d
  | None => d
  end.

(** ** Exceptions and completions *)

Record Error := mkError { err_name : string; err_message : string }.

Definition TypeError (m : string) : Error := mkError "TypeError" m.
Definition SyntaxError (m : string) : Error := mkError "SyntaxError" m.

(** [Error.prototype.toString], used when an exception is interpolated into
    the error page. *)
Definition errorToString (e : Error) : string :=
  if String.eqb (err_message e) EmptyString then err_name e
  else if String.eqb (err_name e) EmptyString then err_message e
  else err_name e ++ ": " ++ err_message e.

(** How a call ends: it returns, it throws (or its promise rejects), or it
    awaits a promise that never settles. *)
Inductive Completion (A : Type) : Type :=
| Normal (a : A)
| Throw (e : Error)
| Hang.
Arguments Normal {A} a.
Arguments Throw {A} e.
Arguments Hang {A}.

Definition M (S A : Type) : Type := S -> Completion A * S.

Definition ret {S A} (a : A) : M S A := fun s => (Normal a, s).

Definition bind {S A B} (m : M S A) (k : A -> M S B) : M S B :=
  fun s =>
    match m s with
    | (Normal a, s') => k a s'
    | (Throw e, s') => (Throw e, s')
    | (Hang, s') => (Hang, s')
    end.

Definition throw {S A} (e : Error) : M S A := fun s => (Throw e, s).

(** [try { m } catch (ex) { h ex }]. *)
Definition tryCatch {S A} (m : M S A) (h : Error -> M S A) : M S A :=
  fun s =>
    match m s with
    | (Throw e, s') => h e s'
    | r => r
    end.

Definition get {S} : M S S := fun s => (Normal s, s).
Definition modify {S} (f : S -> S) : M S unit := fun s => (Normal tt, f s).

(** A step that may throw but touches no state. *)
Definition lift {S A} (c : Completion A) : M S A := fun s => (c, s).

Declare Scope js_scope.
Delimit Scope js_scope with js.
Notation "x <- m ;; k" := (bind m (fun x => k))
  (at level 61, m at next level, right associativity) : js_scope.
Notation "m ;; k" := (bind m (fun _ => k))
  (at level 61, right associativity) : js_scope.
Open Scope js_scope.

(** ** Route compilation ([addMiddleware], [stringToRegex]) *)

Definition charIn (set : string) (c : ascii) : bool :=
  existsb (Ascii.eqb c) (list_ascii_of_string set).

(** The route pattern of [stringToRegex] reads, anchored at both ends: one
    delimiter character (group 1), a lazy run of [.] (group 2), group 1
    again, and a run of flag letters (group 3).  Its two classes: *)
Definition isDelimiter : ascii -> bool := charIn "/~@;%#'".
Definition isFlag : ascii -> bool := charIn "gimsuy".

(** What [.] refuses when the pattern has no [s] flag. *)
Definition isLineTerminator (c : ascii) : bool :=
  Ascii.eqb c LF || Ascii.eqb c CR.

(** Group 3 up to the end anchor: the rest of the input, if it is flag
    letters only. *)
Fixpoint allFlags (s : string) : bool :=
  match s with
  | EmptyString => true
  | String c s' => isFlag c && allFlags s'
  end.

(** Groups 2 and 3 by backtracking over the lazy quantifier: try to close
    the body here, otherwise let [.] take one more character. *)
Fixpoint matchBody (d : ascii) (s : string) : option (string * string) :=
  match s with
  | EmptyString => None
  | String c s' =>
      if Ascii.eqb c d && allFlags s' then Some (EmptyString, s')
      else if isLineTerminator c then None
      else match matchBody d s' with
           | Some (body, fl) => Some (String c body, fl)
           | None => None
           end
  end.

(** [s.match(...)]: the groups [matches[1]], [matches[2]], [matches[3]]. *)
Definition matchRoute (s : string) : option (ascii * string * string) :=
  match s with
  | EmptyString => None
  | String d s' =>
      if isDelimiter d then
        match matchBody d s' with
        | Some (body, fl) => Some (d, body, fl)
        | None => None
        end
      else None
  end.

(** [Array.prototype.indexOf], -1 when absent. *)
Fixpoint indexOfFrom (i : ascii) (k : list ascii) (at_ : Z) : Z :=
  match k with
  | [] => (-1)%Z
  | c :: k' => if Ascii.eqb c i then at_ else indexOfFrom i k' (at_ + 1)%Z
  end.

Definition indexOf (i : ascii) (k : list ascii) : Z := indexOfFrom i k 0%Z.

(** [k.filter((i, p, k) => ...)], the callback seeing the element, its index
    and the whole array. *)
Fixpoint filterFrom {A} (f : A -> Z -> list A -> bool) (whole l : list A) (p : Z)
  : list A :=
  match l with
  | [] => []
  | x :: l' =>
      if f x p whole then x :: filterFrom f whole l' (p + 1)%Z
      else filterFrom f whole l' (p + 1)%Z
  end.

Definition filterIndexed {A} (f : A -> Z -> list A -> bool) (l : list A) : list A :=
  filterFrom f l l 0%Z.

(** The flags argument: [matches[3]] split into characters, filtered by
    [k.indexOf(i) === p], joined again. *)
Definition dedupFlags (fl : string) : string :=
  string_of_list_ascii
    (filterIndexed (fun i p k => Z.eqb (indexOf i k) p) (list_ascii_of_string fl)).

(** The same in the specification's words: each letter once, at its first
    occurrence, order kept. *)
Fixpoint keepFirst (seen l : list ascii) : list ascii :=
  match l with
  | [] => []
  | c :: l' =>
      if existsb (Ascii.eqb c) seen then keepFirst seen l'
      else c :: keepFirst (c :: seen) l'
  end.

(** A [RegExp] object: the two constructor arguments and the mutable
    [lastIndex]. *)
Record RegExp := mkRegExp { source : string; flags : string; lastIndex : nat }.

(** The pattern engine is the host's.  [re_valid src fl] says whether
    [new RegExp(src, fl)] is accepted; [re_match src fl input start] is the
    search from index [start], returning the index after the match. *)
Record Engine := mkEngine {
  re_valid : string -> string -> bool;
  re_match : string -> string -> string -> nat -> option nat
}.

Definition newRegExp (E : Engine) (src fl : string) : Completion RegExp :=
  if re_valid E src fl then Normal (mkRegExp src fl 0)
  else Throw (SyntaxError ("Invalid regular expression: /" ++ src ++ "/" ++ fl)).

Definition stringToRegex (E : Engine) (s : string) : Completion RegExp :=
  match matchRoute s with
  | Some (_, body, fl) => newRegExp E body (dedupFlags fl)
  | None => newRegExp E s EmptyString
  end.

(** The [pattern] of a stack entry: the literal that [addMiddleware] starts
    from (any number of characters of the class of all characters, no flags),
    or the compiled route. *)
Inductive Pattern :=
| MatchAll
| Compiled (r : RegExp).

Definition hasFlag (c : ascii) (r : RegExp) : bool :=
  existsb (Ascii.eqb c) (list_ascii_of_string (flags r)).

Definition setLastIndex (r : RegExp) (i : nat) : RegExp :=
  mkRegExp (source r) (flags r) i.

(** [pattern.test(input)].  The literal has no flags and matches the empty
    prefix of any input.  A compiled pattern with [g] or [y] starts at its
    [lastIndex] and moves it; any other pattern searches from 0 and is left
    untouched. *)
Definition test (E : Engine) (p : Pattern) (input : string) : bool * Pattern :=
  match p with
  | MatchAll => (true, MatchAll)
  | Compiled r =>
      if hasFlag "g" r || hasFlag "y" r then
        if (String.length input <? lastIndex r)%nat then (false, Compiled (setLastIndex r 0))
        else match re_match E (source r) (flags r) input (lastIndex r) with
             | Some e => (true, Compiled (setLastIndex r e))
             | None => (false, Compiled (setLastIndex r 0))
             end
      else
        match re_match E (source r) (flags r) input 0 with
        | Some _ => (true, p)
        | None => (false, p)
        end
  end.

(** ** Data model *)

Record MimeType := mkMime { type : string; name : string; extensions : list string }.

Record Request := mkRequest { url : string; method : string }.

(** A [ServerResponse].  [sentHead] is the status line and headers once they
    have been flushed ([headersSent]); [finished] is set by [end]. *)
Record Response := mkResponse {
  statusCode : Z;
  headers : list (string * string);
  sentHead : option (Z * list (string * string));
  body : string;
  finished : bool
}.

Definition freshResponse : Response := mkResponse 200 [] None EmptyString false.

Definition headersSent (r : Response) : bool :=
  match sentHead r with Some _ => true | None => false end.

Fixpoint putHeader (n v : string) (hs : list (string * string)) : list (string * string) :=
  match hs with
  | [] => [(n, v)]
  | (n', v') :: hs' =>
      if String.eqb n' n then (n, v) :: hs' else (n', v') :: putHeader n v hs'
  end.

Fixpoint getHeader (n : string) (hs : list (string * string)) : option string :=
  match hs with
  | [] => None
  | (n', v) :: hs' => if String.eqb n' n then Some v else getHeader n hs'
  end.

(** Modelled from the spec: [generateNext], the continuation object it
    returns and the [Middleware] type are declared in the module
    [./middleware], which is not among the sources.  The spec describes a
    per-iteration continuation flag that [reset] puts back to undecided, that
    calling the continuation sets, and whose unset state stops the chain; the
    listener tests it with [next.status() === false]. *)
Record Next := mkNext { status : bool }.

Definition generateNext : Next := mkNext false.
Definition reset (n : Next) : Next := mkNext false.
Definition callNext (n : Next) : Next := mkNext true.

(** How the promise returned by a handler settles. *)
Inductive Settlement :=
| Fulfilled
| Rejected (e : Error)
| Pending.

(** What one call [middleware(req, res, next)] has done by the time its
    promise settles (or for good, if it never does): the response and the
    continuation object as the handler left them. *)
Record HandlerRun := mkRun {
  hr_res : Response;
  hr_next : Next;
  hr_outcome : Settlement
}.

(** Modelled from the spec: a handler is an async function of the request,
    the response and the continuation; being async it cannot throw
    synchronously.  It is a black box over the two objects it is handed. *)
Definition Middleware : Type := Request -> Response -> Next -> HandlerRun.

(** An entry of [this.middlewares], as [addMiddleware] pushes it. *)
Record Stack := mkStack { pattern : Pattern; middleware : Middleware }.

(** An entry of [config.middlewares]. *)
Record StackConfig := mkStackConfig {
  sc_middleware : Middleware;
  sc_route : option string
}.

Record Config := mkConfig {
  cfg_host : option string;
  cfg_port : option Z;
  cfg_subfolder : option string;
  cfg_middlewares : option (list StackConfig);
  cfg_directory : option string;
  cfg_additionalMimeTypes : option (list MimeType)
}.

(** [this.server]: all the class does with it is listen and close. *)
Record HttpServer := mkHttpServer { listening : bool }.

(** A connected socket.io client: its id, the events it has been sent, and
    whether the connection callback gave it a [disconnect] listener. *)
Record Client := mkClient {
  sid : nat;
  inbox : list string;
  logsDisconnect : bool
}.

(** [this.io]. *)
Record Socket := mkSocket { clients : list Client }.

(** The fields of a [ParvusServer]; a field the constructor has not assigned
    is [undefined], here [None]. *)
Record ParvusServer := mkServer {
  server : option HttpServer;
  mimeTypes : option (list MimeType);
  io : option Socket;
  connectedBefore : bool;
  host : option string;
  port : option Z;
  directory : option string;
  subfolder : option string;
  middlewares : list Stack
}.

Definition setServer (v : option HttpServer) (s : ParvusServer) : ParvusServer :=
  mkServer v (mimeTypes s) (io s) (connectedBefore s) (host s) (port s)
    (directory s) (subfolder s) (middlewares s).
Definition setMimeTypes (v : option (list MimeType)) (s : ParvusServer) : ParvusServer :=
  mkServer (server s) v (io s) (connectedBefore s) (host s) (port s)
    (directory s) (subfolder s) (middlewares s).
Definition setIo (v : option Socket) (s : ParvusServer) : ParvusServer :=
  mkServer (server s) (mimeTypes s) v (connectedBefore s) (host s) (port s)
    (directory s) (subfolder s) (middlewares s).
Definition setConnectedBefore (v : bool) (s : ParvusServer) : ParvusServer :=
  mkServer (server s) (mimeTypes s) (io s) v (host s) (port s)
    (directory s) (subfolder s) (middlewares s).
Definition setHost (v : option string) (s : ParvusServer) : ParvusServer :=
  mkServer (server s) (mimeTypes s) (io s) (connectedBefore s) v (port s)
    (directory s) (subfolder s) (middlewares s).
Definition setPort (v : option Z) (s : ParvusServer) : ParvusServer :=
  mkServer (server s) (mimeTypes s) (io s) (connectedBefore s) (host s) v
    (directory s) (subfolder s) (middlewares s).
Definition setDirectory (v : option string) (s : ParvusServer) : ParvusServer :=
  mkServer (server s) (mimeTypes s) (io s) (connectedBefore s) (host s) (port s)
    v (subfolder s) (middlewares s).
Definition setSubfolder (v : option string) (s : ParvusServer) : ParvusServer :=
  mkServer (server s) (mimeTypes s) (io s) (connectedBefore s) (host s) (port s)
    (directory s) v (middlewares s).
Definition setMiddlewares (v : list Stack) (s : ParvusServer) : ParvusServer :=
  mkServer (server s) (mimeTypes s) (io s) (connectedBefore s) (host s) (port s)
    (directory s) (subfolder s) v.

(** ** Construction and registration *)

(** The object before the constructor body runs: the two field initializers
    of the class, everything else unassigned. *)
Definition fieldInitializers : ParvusServer :=
  mkServer None None None false None None None None [].

Definition undefinedRead (prop : string) : Error :=
  TypeError ("Cannot read properties of undefined (reading '" ++ prop ++ "')").

Definition addMiddleware (E : Engine) (mw : Middleware) (route : option string)
  : M ParvusServer unit :=
  let route := match route with Some r => r | None => "*" end in
  pattern <- (if String.eqb route "*" then ret MatchAll
              else r <- lift (stringToRegex E route) ;; ret (Compiled r)) ;;
  modify (fun s => setMiddlewares (middlewares s ++ [mkStack pattern mw]) s).

(** [xs.forEach(f)]. *)
Fixpoint forEach {S A} (xs : list A) (f : A -> M S unit) : M S unit :=
  match xs with
  | [] => ret tt
  | x :: xs' => f x ;; forEach xs' f
  end.

Definition constructor (E : Engine) (config : option Config) : M ParvusServer unit :=
  match config with
  | Some c =>
      modify (setHost (Some (orString (cfg_host c) "localhost"))) ;;
      modify (setPort (Some (orNumber (cfg_port c) 62295))) ;;
      modify (setDirectory (Some (orString (cfg_directory c) "site"))) ;;
      modify (setSubfolder (cfg_subfolder c)) ;;
      match cfg_middlewares c with
      | Some ms => forEach ms (fun x => addMiddleware E (sc_middleware x) (sc_route x))
      | None => ret tt
      end ;;
      modify (setMimeTypes
                (Some (match cfg_additionalMimeTypes c with
                       | Some l => l
                       | None => []
                       end)))
  | None => ret tt
  end.

(** [new ParvusServer(config)]: the object, unless the constructor threw. *)
Definition newParvusServer (E : Engine) (config : option Config)
  : Completion ParvusServer :=
  match constructor E config fieldInitializers with
  | (Normal _, s) => Normal s
  | (Throw e, _) => Throw e
  | (Hang, _) => Hang
  end.

(** ** MIME merge *)

(** The callback of [mimeTypes.map] in [mergedMimeTypes]. *)
Definition mergeItem (this : ParvusServer) (item1 : MimeType) : Completion MimeType :=
  match mimeTypes this with
  | None => Throw (undefinedRead "find")
  | Some additions =>
      match find (fun item => String.eqb (type item) (type item1)) additions with
      | Some item2 =>
          Normal (mkMime (type item1) (name item1)
                    (extensions item1 ++ extensions item2))
      | None => Normal item1
      end
  end.

(** [xs.map(f)] for a callback that may throw. *)
Fixpoint mapThrowing {A B} (f : A -> Completion B) (xs : list A) : Completion (list B) :=
  match xs with
  | [] => Normal []
  | x :: xs' =>
      match f x with
      | Normal y =>
          match mapThrowing f xs' with
          | Normal ys => Normal (y :: ys)
          | Throw e => Throw e
          | Hang => Hang
          end
      | Throw e => Throw e
      | Hang => Hang
      end
  end.

Definition mergedMimeTypes (this : ParvusServer) (fetched : list MimeType)
  : Completion (list MimeType) :=
  mapThrowing (mergeItem this) fetched.

(** ** The document tree ([socketInjection]) *)

(** The tree JSDOM builds.  Elements carry their lower-case tag name. *)
Inductive Node :=
| Element (tag : string) (attrs : list (string * string)) (children : list Node)
| Text (data : string)
| Comment (data : string)
| Doctype (name : string).

(** The children of the document node. *)
Definition Document : Type := list Node.

(** A reference to a node: the child indices leading to it. *)
Definition Path : Type := list nat.

(** First element with the given tag, in document order, below (or at) a
    node; the path is relative to that node. *)
Fixpoint findNode (t : string) (n : Node) : option Path :=
  match n with
  | Element t' _ ks =>
      if String.eqb t' t then Some []
      else (fix go (l : list Node) (i : nat) : option Path :=
              match l with
              | [] => None
              | k :: l' =>
                  match findNode t k with
                  | Some p => Some (i :: p)
                  | None => go l' (S i)
                  end
              end) ks 0
  | _ => None
  end.

Fixpoint findForest (t : string) (l : list Node) (i : nat) : option Path :=
  match l with
  | [] => None
  | k :: l' =>
      match findNode t k with
      | Some p => Some (i :: p)
      | None => findForest t l' (S i)
      end
  end.

(** [document.querySelector(tag)] for a type selector; [None] is [null]. *)
Definition querySelector (doc : Document) (t : string) : option Path :=
  findForest t doc 0.

Fixpoint getNode (l : list Node) (p : Path) : option Node :=
  match p with
  | [] => None
  | i :: p' =>
      match nth_error l i with
      | None => None
      | Some n =>
          match p', n with
          | [], _ => Some n
          | _ :: _, Element _ _ ks => getNode ks p'
          | _ :: _, _ => None
          end
      end
  end.

Fixpoint mapNth {A} (i : nat) (f : A -> A) (l : list A) : list A :=
  match l, i with
  | [], _ => []
  | x :: l', O => f x :: l'
  | x :: l', S i' => x :: mapNth i' f l'
  end.

Fixpoint updateAt (f : Node -> Node) (l : list Node) (p : Path) : list Node :=
  match p with
  | [] => l
  | i :: p' =>
      mapNth i (fun n =>
                  match p', n with
                  | [], _ => f n
                  | _ :: _, Element t a ks => Element t a (updateAt f ks p')
                  | _ :: _, _ => n
                  end) l
  end.

Definition addChild (child : Node) (n : Node) : Node :=
  match n with
  | Element t a ks => Element t a (ks ++ [child])
  | _ => n
  end.

(** [body.appendChild(child)] on the tree the reference points into; a
    [null] reference throws. *)
Definition appendChild (doc : Document) (ref : option Path) (child : Node)
  : Completion Document :=
  match ref with
  | None => Throw (TypeError "Cannot read properties of null (reading 'appendChild')")
  | Some p => Normal (updateAt (addChild child) doc p)
  end.

(** The two elements [socketInjection] creates. *)
Definition clientScript : Node :=
  Element "script" [("src", "/socket.io/socket.io.js"); ("type", "text/javascript")] [].

Definition reloadScript : Node :=
  Element "script" [("type", "text/javascript")]
    [Text "const socket = io();socket.on('refresh', () => document.location.reload());"].

(** ** The host environment *)

Inductive FsNode :=
| RegularFile (content : string)
| Directory.

Record Stats := mkStats { isFile : bool; isDirectory : bool }.

(** What the class takes from its platform: the pattern engine, the
    [pathname] of [new URL(u, 'https://z')] ([None] when the constructor
    throws), [path.join] and [path.extname], the file system, and JSDOM's
    parser and serializer. *)
Record Host := mkHost {
  engine : Engine;
  url_pathname : string -> option string;
  path_join : string -> string -> string;
  path_extname : string -> string;
  fs : string -> option FsNode;
  jsdom_parse : string -> Document;
  jsdom_serialize : Document -> string
}.

Definition systemError (code path : string) : Error :=
  mkError "Error" (code ++ ": " ++ path).

(** [fs.stat]: succeeds on anything that exists. *)
Definition stat (H : Host) (p : string) : Completion Stats :=
  match fs H p with
  | Some (RegularFile _) => Normal (mkStats true false)
  | Some Directory => Normal (mkStats false true)
  | None => Throw (systemError "ENOENT" p)
  end.

(** [fs.readFile]: only a regular file can be read. *)
Definition readFile (H : Host) (p : string) : Completion string :=
  match fs H p with
  | Some (RegularFile c) => Normal c
  | Some Directory => Throw (systemError "EISDIR" p)
  | None => Throw (systemError "ENOENT" p)
  end.

(** [path.join(directory, url)]: refuses an [undefined] segment. *)
Definition pathJoin (H : Host) (dir : option string) (u : string) : Completion string :=
  match dir with
  | Some d => Normal (path_join H d u)
  | None => Throw (TypeError "The path argument must be of type string. Received undefined")
  end.

Definition socketInjection (H : Host) (html : string) : Completion string :=
  let document := jsdom_parse H html in
  let body := querySelector document "body" in
  match appendChild document body clientScript with
  | Normal document1 =>
      match appendChild document1 body reloadScript with
      | Normal document2 => Normal (jsdom_serialize H document2)
      | Throw e => Throw e
      | Hang => Hang
      end
  | Throw e => Throw e
  | Hang => Hang
  end.

(** ** The world a request runs in *)

Inductive LogEntry :=
| Log (s : string)
| Warn (s : string)
| LogError (e : Error).

(** Ghost events, recorded for the statements only: the k-th matched handler
    has settled (with the continuation flag and [finished] as it left them),
    [defaultHandler] has been entered, [io.emit] has been called. *)
Inductive Event :=
| Ran (k : nat) (continued ended : bool)
| DefaultHandlerCalled
| Emitted (event : string).

Record World := mkWorld {
  this : ParvusServer;
  console : list LogEntry;
  res : Response;
  trace : list Event
}.

Definition setThis (v : ParvusServer) (w : World) : World :=
  mkWorld v (console w) (res w) (trace w).
Definition setRes (v : Response) (w : World) : World :=
  mkWorld (this w) (console w) v (trace w).
Definition logEntry (l : LogEntry) : M World unit :=
  modify (fun w => mkWorld (this w) (console w ++ [l]) (res w) (trace w)).
Definition record (e : Event) : M World unit :=
  modify (fun w => mkWorld (this w) (console w) (res w) (trace w ++ [e])).

(** A method of the class run on [this]. *)
Definition onThis {A} (m : M ParvusServer A) : M World A :=
  fun w => let (c, s) := m (this w) in (c, setThis s w).

Definition headersSentError : Error :=
  mkError "Error" "Cannot set headers after they are sent to the client".

(** [res.setHeader(n, v)]: header names are case-insensitive; throws once
    the headers are sent. *)
Definition setHeader (n v : string) (r : Response) : Completion Response :=
  if headersSent r then Throw headersSentError
  else Normal (mkResponse (statusCode r) (putHeader (toLowerCase n) v (headers r))
                 (sentHead r) (body r) (finished r)).

(** [res.writeHead(c)]: flushes the status line and headers; throws if that
    has happened already.  The class passes 200 and 500 only. *)
Definition writeHead (c : Z) (r : Response) : Completion Response :=
  if headersSent r then Throw headersSentError
  else Normal (mkResponse c (headers r) (Some (c, headers r)) (body r) (finished r)).

(** [res.end(data)]: flushes the head with the current [statusCode] if
    need be, writes the data and finishes; a second [end] does nothing. *)
Definition endWith (data : string) (r : Response) : Response :=
  if finished r then r
  else mkResponse (statusCode r) (headers r)
         (match sentHead r with
          | Some h => Some h
          | None => Some (statusCode r, headers r)
          end)
         (body r ++ data) true.

(** The same calls on the response of the request in flight. *)
Definition onRes (f : Response -> Completion Response) : M World unit :=
  fun w =>
    match f (res w) with
    | Normal r => (Normal tt, setRes r w)
    | Throw e => (Throw e, w)
    | Hang => (Hang, w)
    end.

(** [res.statusCode = c] *)
Definition res_statusCode (c : Z) : M World unit :=
  onRes (fun r => Normal (mkResponse c (headers r) (sentHead r) (body r) (finished r))).
Definition res_setHeader (n v : string) : M World unit := onRes (setHeader n v).
Definition res_writeHead (c : Z) : M World unit := onRes (writeHead c).
Definition res_end (data : string) : M World unit :=
  onRes (fun r => Normal (endWith data r)).

(** ** The static file resolver ([defaultHandler]) *)

Definition page404 : string :=
  nl ++ "            <html lang=" ++ dq ++ "en" ++ dq ++ ">" ++
  nl ++ "              <body style=" ++ dq ++ "background-color: #171717;color:white;" ++ dq ++ ">" ++
  nl ++ "                <h3>Page not found</h3>" ++
  nl ++ "              </body>" ++
  nl ++ "            </html>".

Definition page500 (u : string) (ex : Error) : string :=
  "<html lang=" ++ dq ++ "en" ++ dq ++ "><body style=" ++ dq ++
  "background-color: #171717;color:white;" ++ dq ++
  "><h1>Error</h1><p>Failed to load requested file at " ++ u ++
  "</p><p><pre>" ++ errorToString ex ++ "</pre></p></body></html>".

Definition includes (x : string) (l : list string) : bool := existsb (String.eqb x) l.

(** The inner function [complete] of [defaultHandler]. *)
Definition complete (mimeType input : string) : M World unit :=
  res_setHeader "Content-Type" mimeType ;;
  res_writeHead 200 ;;
  res_end input.

Definition defaultHandler (H : Host) (req : Request) (dir : option string)
  (addSocket : bool) : M World unit :=
  record DefaultHandlerCalled ;;
  u <- lift (match url_pathname H (url req) with
             | Some p => Normal p
             | None => Throw (TypeError "Invalid URL")
             end) ;;
  let u := if endsWith u "/" then u ++ "index.html" else u in
  w <- get ;;
  let dir := if truthyString dir then dir else directory (this w) in
  du <- match subfolder (this w) with
        | Some sub =>
            if truthyString (Some sub) then
              match dir with
              | Some d => ret (Some (replaceFirst sub EmptyString d),
                               replaceFirst sub EmptyString u)
              | None => throw (undefinedRead "replace")
              end
            else ret (dir, u)
        | None => ret (dir, u)
        end ;;
  let dir := fst du in
  let u := snd du in
  tryCatch
    (filePath <- lift (pathJoin H dir u) ;;
     fileExists <- tryCatch (st <- lift (stat H filePath) ;; ret (Some st))
                            (fun _ => ret None) ;;
     match fileExists with
     | None =>
         res_statusCode 404 ;;
         res_setHeader "Content-Type" "text/html" ;;
         res_end page404
     | Some _ =>
         file <- lift (readFile H filePath) ;;
         let extension := replaceFirst "." EmptyString (path_extname H u) in
         w <- get ;;
         found <- lift (match mimeTypes (this w) with
                        | Some l => Normal (find (fun x => includes extension (extensions x)) l)
                        | None => Throw (undefinedRead "find")
                        end) ;;
         let mimeType := option_map type found in
         mimeType <- (if truthyString mimeType
                      then ret (orString mimeType "text/html")
                      else logEntry (Warn ("Couldn't determine mimetype for "
                                           ++ path_extname H u ++ ". Defaulting to html")) ;;
                           ret "text/html") ;;
         if String.eqb mimeType "text/html" && addSocket then
           tryCatch (modified <- lift (socketInjection H file) ;;
                     complete mimeType modified)
                    (fun _ => complete mimeType file)
         else complete mimeType file
     end)
    (fun ex =>
       logEntry (LogError ex) ;;
       res_setHeader "Content-Type" "text/html" ;;
       res_writeHead 500 ;;
       res_end (page500 u ex)).

(** ** The request listener ([createServer]) *)

(** [this.middlewares.filter(x => x.pattern.test(req.url)).map(x => x.middleware)]:
    the stack as the tests leave it, and the matching handlers in order. *)
Fixpoint filterMatching (E : Engine) (u : string) (ms : list Stack)
  : list Stack * list Middleware :=
  match ms with
  | [] => ([], [])
  | x :: ms' =>
      let (b, p') := test E (pattern x) u in
      let (stacks, matching) := filterMatching E u ms' in
      (mkStack p' (middleware x) :: stacks,
       if b then middleware x :: matching else matching)
  end.

(** The [for] loop of the listener from the k-th matched handler on; the
    result is the continuation object after the loop. *)
Fixpoint runChain (req : Request) (matching : list Middleware) (k : nat) (next : Next)
  : M World Next :=
  match matching with
  | [] => ret next
  | mw :: rest =>
      let next := reset next in
      w <- get ;;
      let run := mw req (res w) next in
      modify (setRes (hr_res run)) ;;
      match hr_outcome run with
      | Fulfilled => ret tt
      | Rejected e => logEntry (LogError e)
      | Pending => lift Hang
      end ;;
      let next := hr_next run in
      record (Ran k (status next) (finished (hr_res run))) ;;
      if negb (status next) then ret next
      else runChain req rest (S k) next
  end.

Definition listener (H : Host) (req : Request) : M World unit :=
  let next := generateNext in
  w <- get ;;
  let sm := filterMatching (engine H) (url req) (middlewares (this w)) in
  let matching := snd sm in
  modify (setThis (setMiddlewares (fst sm) (this w))) ;;
  next <- runChain req matching 0 next ;;
  if (length matching =? 0)%nat || status next
  then defaultHandler H req None true
  else ret tt.

(** A request arrives: the transport calls the listener with a response of
    its own. *)
Definition serve (H : Host) (req : Request) : M World unit :=
  modify (setRes freshResponse) ;; listener H req.

(** ** The live-reload channel *)

Definition deliver (event : string) (c : Client) : Client :=
  mkClient (sid c) (inbox c ++ [event]) (logsDisconnect c).

Definition refreshBrowser : M World unit :=
  logEntry (Log "Asking browser to refresh") ;;
  w <- get ;;
  match io (this w) with
  | Some sock =>
      record (Emitted "refresh") ;;
      modify (setThis (setIo (Some (mkSocket (map (deliver "refresh") (clients sock))))
                         (this w)))
  | None => throw (undefinedRead "emit")
  end.

Definition listenTo (id : nat) (c : Client) : Client :=
  if Nat.eqb (sid c) id then mkClient (sid c) (inbox c) true else c.

(** The callback of [this.io.on('connection', ...)]. *)
Definition connectionCallback (id : nat) : M World unit :=
  w <- get ;;
  if negb (connectedBefore (this w)) then
    refreshBrowser ;;
    onThis (modify (setConnectedBefore true))
  else
    logEntry (Log "The browser is listening") ;;
    onThis (modify (fun s =>
      match io s with
      | Some sock => setIo (Some (mkSocket (map (listenTo id) (clients sock)))) s
      | None => s
      end)).

(** A client connects: socket.io adds it to the connected clients, then runs
    the callback.  Without [this.io] there is nothing to connect to. *)
Definition connect (id : nat) : M World unit :=
  w <- get ;;
  match io (this w) with
  | Some sock =>
      onThis (modify (setIo (Some (mkSocket (clients sock ++ [mkClient id [] false]))))) ;;
      connectionCallback id
  | None => ret tt
  end.

(** A client goes away; its [disconnect] listener, if it has one, logs. *)
Definition disconnect (id : nat) : M World unit :=
  w <- get ;;
  match io (this w) with
  | Some sock =>
      (if existsb (fun c => Nat.eqb (sid c) id && logsDisconnect c) (clients sock)
       then logEntry (Log "The browser disconnected") else ret tt) ;;
      onThis (modify (setIo (Some (mkSocket
                (filter (fun c => negb (Nat.eqb (sid c) id)) (clients sock))))))
  | None => ret tt
  end.

Definition showOption (o : option string) : string :=
  match o with Some s => s | None => "undefined" end.

Definition showNumber (o : option Z) : string :=
  match o with
  | Some n => NilZero.string_of_int (Z.to_int n)
  | None => "undefined"
  end.

(** The part of [createServer] that is not the two callbacks: the server
    listens, and the socket server is attached to it. *)
Definition createServer : M World unit :=
  onThis (modify (setServer (Some (mkHttpServer true)))) ;;
  w <- get ;;
  logEntry (Log ("Server is running on http://" ++ showOption (host (this w))
                 ++ ":" ++ showNumber (port (this w)))) ;;
  onThis (modify (setIo (Some (mkSocket [])))).

(** [startAsync], given what [fetchMimetypes] resolves to. *)
Definition startAsync (fetched : Completion (list MimeType)) : M World unit :=
  base <- lift fetched ;;
  w <- get ;;
  merged <- lift (mergedMimeTypes (this w) base) ;;
  onThis (modify (setMimeTypes (Some merged))) ;;
  createServer.

Definition stop : M World unit :=
  onThis (modify (fun s =>
    match server s with
    | Some _ => setServer (Some (mkHttpServer false)) s
    | None => s
    end)).

(** Everything that can happen to a server once it exists. *)
Inductive Op :=
| OpStart (fetched : Completion (list MimeType))
| OpStop
| OpAddMiddleware (mw : Middleware) (route : option string)
| OpRefreshBrowser
| OpRequest (req : Request)
| OpConnect (id : nat)
| OpDisconnect (id : nat).

Definition step (H : Host) (op : Op) : M World unit :=
  match op with
  | OpStart fetched => startAsync fetched
  | OpStop => stop
  | OpAddMiddleware mw route => onThis (addMiddleware (engine H) mw route)
  | OpRefreshBrowser => refreshBrowser
  | OpRequest req => serve H req
  | OpConnect id => connect id
  | OpDisconnect id => disconnect id
  end.

(** The world after a sequence of operations; an operation that throws or
    hangs leaves the world as it was at that point, and the next one runs. *)
Fixpoint runOps (H : Host) (ops : list Op) (w : World) : World :=
  match ops with
  | [] => w
  | op :: ops' => runOps H ops' (snd (step H op w))
  end.

Definition isEmit (e : Event) : bool :=
  match e with Emitted _ => true | _ => false end.

(** The number of broadcasts so far. *)
Definition broadcasts (w : World) : nat := length (filter isEmit (trace w)).

(** ** A concrete host and concrete handlers for the closed examples *)

Fixpoint balanced (s : string) (depth : nat) : bool :=
  match s with
  | EmptyString => Nat.eqb depth 0
  | String c s' =>
      if Ascii.eqb c "(" then balanced s' (S depth)
      else if Ascii.eqb c ")" then
             match depth with
             | O => false
             | S d => balanced s' d
             end
           else balanced s' depth
  end.

Fixpoint searchFrom (pat s : string) (i start : nat) : option nat :=
  if Nat.leb start i && String.prefix pat s then Some (i + String.length pat)
  else match s with
       | EmptyString => None
       | String _ s' => searchFrom pat s' (S i) start
       end.

(** An engine for the examples: it accepts a source whose parentheses
    balance and searches for the source as a literal substring, which is what
    a real engine does on sources free of metacharacters. *)
Definition literalEngine : Engine :=
  mkEngine (fun src _ => balanced src 0) (fun src _ input start => searchFrom src input 0 start).

Fixpoint cutQuery (s : string) : string :=
  match s with
  | EmptyString => EmptyString
  | String c s' =>
      if Ascii.eqb c "?" || Ascii.eqb c "#" then EmptyString else String c (cutQuery s')
  end.

Fixpoint lastExtension (s : string) : string :=
  match s with
  | EmptyString => EmptyString
  | String c s' =>
      let r := lastExtension s' in
      if negb (String.eqb r EmptyString) then r
      else if Ascii.eqb c "." then s else EmptyString
  end.

Definition exampleFs (p : string) : option FsNode :=
  if String.eqb p "site/index.html" then Some (RegularFile "<p>hi</p>")
  else if String.eqb p "site/frames.html" then Some (RegularFile "<frameset></frameset>")
  else if String.eqb p "site/docs" then Some Directory
  else None.

Definition exampleParse (html : string) : Document :=
  if String.prefix "<frameset" html
  then [Element "html" [] [Element "head" [] []; Element "frameset" [] []]]
  else [Element "html" [] [Element "head" [] []; Element "body" [] [Text html]]].

Definition serializeAttr (a : string * string) : string :=
  " " ++ fst a ++ "=" ++ dq ++ snd a ++ dq.

Fixpoint serializeNode (n : Node) : string :=
  match n with
  | Element t a ks =>
      "<" ++ t ++ String.concat EmptyString (map serializeAttr a) ++ ">"
      ++ String.concat EmptyString (map serializeNode ks) ++ "</" ++ t ++ ">"
  | Text d => d
  | Comment d => "<!--" ++ d ++ "-->"
  | Doctype n => "<!DOCTYPE " ++ n ++ ">"
  end.

Definition exampleHost : Host :=
  mkHost literalEngine (fun u => Some (cutQuery u)) (fun d u => d ++ u) lastExtension
    exampleFs exampleParse (fun doc => String.concat EmptyString (map serializeNode doc)).

Definition exampleMimes : list MimeType :=
  [mkMime "text/html" "HTML" ["html"; "htm"]; mkMime "text/css" "CSS" ["css"]].

(** A handler that writes a complete response and returns. *)
Definition respond (html : string) : Middleware :=
  fun _ r next => mkRun (endWith html r) next Fulfilled.

(** A handler that writes a complete response and calls the continuation. *)
Definition respondAndContinue (html : string) : Middleware :=
  fun _ r next => mkRun (endWith html r) (callNext next) Fulfilled.

(** A handler that returns without touching the response or the
    continuation. *)
Definition silent : Middleware :=
  fun _ r next => mkRun r next Fulfilled.

(** A handler that calls the continuation and returns. *)
Definition passOn : Middleware :=
  fun _ r next => mkRun r (callNext next) Fulfilled.

(** A handler that calls the continuation and then throws. *)
Definition continueThenThrow (e : Error) : Middleware :=
  fun _ r next => mkRun r (callNext next) (Rejected e).

(** A handler that throws at once. *)
Definition throwAtOnce (e : Error) : Middleware :=
  fun _ r next => mkRun r next (Rejected e).

Definition boom : Error := mkError "Error" "boom".

Definition emptyConfig : Config := mkConfig None None None None None None.

Definition withMiddlewares (ms : list StackConfig) : Config :=
  mkConfig None None None (Some ms) None None.

(** The world after [new ParvusServer(config)] and [startAsync()] on the
    example host, the MIME file holding [exampleMimes]. *)
Definition started (config : option Config) : World :=
  snd (startAsync (Normal exampleMimes)
         (mkWorld (snd (constructor literalEngine config fieldInitializers))
                  [] freshResponse [])).

(** ** Vocabulary of the statements *)

Fixpoint noLineTerminator (s : string) : bool :=
  match s with
  | EmptyString => true
  | String c s' => negb (isLineTerminator c) && noLineTerminator s'
  end.

(** A route in delimited form: delimiter, body, the delimiter again, flag
    letters. *)
Definition delimited (d : ascii) (body fl : string) : string :=
  String d (body ++ String d fl).

(** The two arguments [stringToRegex] hands to the [RegExp] constructor. *)
Definition routeArguments (s : string) : string * string :=
  match matchRoute s with
  | Some (_, body, fl) => (body, dedupFlags fl)
  | None => (s, EmptyString)
  end.

(** The route compilation rule as the specification words it: any delimited
    route compiles to its body with the deduplicated flags. *)
Definition compilesDelimitedRoutes (E : Engine) (s : string) : Prop :=
  forall d body fl,
    isDelimiter d = true -> allFlags fl = true -> s = delimited d body fl ->
    stringToRegex E s = newRegExp E body (dedupFlags fl).

(** The entry [addMiddleware] is to push. *)
Definition pushed (p : Pattern) (mw : Middleware) (s : ParvusServer) : ParvusServer :=
  setMiddlewares (middlewares s ++ [mkStack p mw]) s.

(** The route [addMiddleware] works with when none is passed. *)
Definition routeOrDefault (route : option string) : string :=
  match route with Some r => r | None => "*" end.

(** A route the engine accepts: the wildcard, or one whose constructor
    arguments the engine takes. *)
Definition validRoute (E : Engine) (r : string) : bool :=
  String.eqb r "*"
  || re_valid E (fst (routeArguments r)) (snd (routeArguments r)).

(** A computation keeps a property of the state, however it ends. *)
Definition keeps {S A} (P : S -> Prop) (m : M S A) : Prop :=
  forall s, P s -> P (snd (m s)).

Definition sameType (b a : MimeType) : bool := String.eqb (type a) (type b).

(** What the merge makes of one base entry, given the additions. *)
Definition mergedEntry (additions : list MimeType) (b : MimeType) : MimeType :=
  match find (sameType b) additions with
  | Some a => mkMime (type b) (name b) (extensions b ++ extensions a)
  | None => b
  end.

(** A config field that is falsy, read as omitted. *)
Definition omitFalsyString (o : option string) : option string :=
  if truthyString o then o else None.
Definition omitFalsyNumber (o : option Z) : option Z :=
  if truthyNumber o then o else None.

Definition omitFalsy (c : Config) : Config :=
  mkConfig (omitFalsyString (cfg_host c)) (omitFalsyNumber (cfg_port c))
    (cfg_subfolder c) (cfg_middlewares c) (omitFalsyString (cfg_directory c))
    (cfg_additionalMimeTypes c).

(** The directory and URL path [defaultHandler] ends up with: the parsed
    path, [index.html] appended after a trailing slash, the subfolder taken
    out of both.  [None] when the URL does not parse or the subfolder is to
    be taken out of an undefined directory. *)
Definition candidate (H : Host) (this : ParvusServer) (req : Request)
  (dir : option string) : option (option string * string) :=
  match url_pathname H (url req) with
  | None => None
  | Some u =>
      let u := if endsWith u "/" then u ++ "index.html" else u in
      let dir := if truthyString dir then dir else directory this in
      if truthyString (subfolder this) then
        match subfolder this, dir with
        | Some sub, Some d =>
            Some (Some (replaceFirst sub EmptyString d), replaceFirst sub EmptyString u)
        | _, _ => None
        end
      else Some (dir, u)
  end.

(** The content type [defaultHandler] settles on for a URL path. *)
Definition mimeOf (H : Host) (l : list MimeType) (u : string) : string :=
  let extension := replaceFirst "." EmptyString (path_extname H u) in
  let found := option_map type (find (fun x => includes extension (extensions x)) l) in
  if truthyString found then orString found "text/html" else "text/html".

(** A response nothing has been sent on. *)
Definition unsent (r : Response) : Prop :=
  sentHead r = None /\ finished r = false.

(** The response after [statusCode], one more header and [end]. *)
Definition answered (r : Response) (code : Z) (contentType payload : string) : Response :=
  let hs := putHeader "content-type" contentType (headers r) in
  mkResponse code hs (Some (code, hs)) (body r ++ payload) true.

(** C4 as worded: whenever the candidate path is not a regular file, the
    answer is the 404 page. *)
Definition notFoundUnlessRegularFile (H : Host) (req : Request) (w : World) : Prop :=
  forall d u,
    candidate H (this w) req None = Some (Some d, u) ->
    (forall c, fs H (path_join H d u) <> Some (RegularFile c)) ->
    res (snd (defaultHandler H req None true w))
    = answered (res w) 404 "text/html" page404.

(** The document read in order: what a serializer walks through. *)
Inductive Token :=
| Open (tag : string) (attrs : list (string * string))
| Close (tag : string)
| Chars (data : string)
| CommentToken (data : string)
| DoctypeToken (name : string).

Fixpoint tokens (n : Node) : list Token :=
  match n with
  | Element t a ks => Open t a :: flat_map tokens ks ++ [Close t]
  | Text d => [Chars d]
  | Comment d => [CommentToken d]
  | Doctype n => [DoctypeToken n]
  end.

Definition docTokens (doc : list Node) : list Token := flat_map tokens doc.

Definition opens (t : string) (k : Token) : bool :=
  match k with
  | Open t' _ => String.eqb t' t
  | _ => false
  end.

(** The number of elements with a given tag. *)
Definition countElements (t : string) (doc : list Node) : nat :=
  length (filter (opens t) (docTokens doc)).

(** The document has an element with the given tag somewhere. *)
Definition hasElement (t : string) (doc : list Node) : Prop :=
  exists q a ks, getNode doc q = Some (Element t a ks).

(** The handlers matching a request, in registration order. *)
Definition matchingHandlers (H : Host) (req : Request) (w : World) : list Middleware :=
  snd (filterMatching (engine H) (url req) (middlewares (this w))).

(** The response a run of handlers leaves when each of them settles having
    called the continuation; [None] when one of them stops the chain or
    never settles. *)
Fixpoint passes (req : Request) (pre : list Middleware) (r : Response) : option Response :=
  match pre with
  | [] => Some r
  | mw :: pre' =>
      let run := mw req r (reset generateNext) in
      match hr_outcome run with
      | Pending => None
      | _ => if status (hr_next run) then passes req pre' (hr_res run) else None
      end
  end.

(** The world once the k-th matched handler has settled. *)
Definition afterRun (k : nat) (run : HandlerRun) (w : World) : World :=
  mkWorld (this w)
    (match hr_outcome run with
     | Rejected e => console w ++ [LogError e]
     | _ => console w
     end)
    (hr_res run)
    (trace w ++ [Ran k (status (hr_next run)) (finished (hr_res run))]).

(** Events of handlers that called the continuation, and nothing else. *)
Definition allContinued (evs : list Event) : Prop :=
  forall ev, In ev evs -> exists k e, ev = Ran k true e.

(** Events of handlers with an index below [n], and nothing else: no later
    handler ran and [defaultHandler] was not entered. *)
Definition ranOnly (n : nat) (evs : list Event) : Prop :=
  forall ev, In ev evs -> exists k c e, ev = Ran k c e /\ k < n.

(** The chain stopped at a handler that had not called the continuation. *)
Definition stopped (evs : list Event) : Prop :=
  exists k e, In (Ran k false e) evs.

(** C1 as worded: exactly one of a handler leaving the response sent and
    [defaultHandler] being invoked. *)
Definition sentXorResolved (H : Host) (req : Request) (w : World) : Prop :=
  let t := trace (snd (listener H req w)) in
  ((exists k c, In (Ran k c true) t) /\ ~ In DefaultHandlerCalled t)
  \/ (~ (exists k c, In (Ran k c true) t) /\ In DefaultHandlerCalled t).

(** C2 as worded: once a matched handler rejects, nothing after it runs. *)
Definition failureStopsChain (H : Host) (req : Request) (w : World) : Prop :=
  forall pre h post r1 e,
    matchingHandlers H req w = (pre ++ h :: post)%list ->
    passes req pre (res w) = Some r1 ->
    hr_outcome (h req r1 (reset generateNext)) = Rejected e ->
    ranOnly (S (length pre)) (trace (snd (listener H req w))).

(** A computation that never waits forever. *)
Definition settles {S A} (m : M S A) : Prop := forall s, fst (m s) <> Hang.

(** The tables of the merge example. *)
Definition cssAdditions : list MimeType :=
  [mkMime "text/css" "CSS" ["scss"]; mkMime "text/x-foo" "Foo" ["foo"]].
Definition cssBase : list MimeType :=
  [mkMime "text/css" "CSS" ["css"]; mkMime "text/html" "HTML" ["html"]].

(** [defaultHandler] from the [try] on, for a candidate. *)
Definition resolve (H : Host) (d : option string) (u : string) (addSocket : bool)
  : M World unit :=
  tryCatch
    (filePath <- lift (pathJoin H d u) ;;
     fileExists <- tryCatch (st <- lift (stat H filePath) ;; ret (Some st))
                            (fun _ => ret None) ;;
     match fileExists with
     | None =>
         res_statusCode 404 ;;
         res_setHeader "Content-Type" "text/html" ;;
         res_end page404
     | Some _ =>
         file <- lift (readFile H filePath) ;;
         let extension := replaceFirst "." EmptyString (path_extname H u) in
         w <- get ;;
         found <- lift (match mimeTypes (this w) with
                        | Some l => Normal (find (fun x => includes extension (extensions x)) l)
                        | None => Throw (undefinedRead "find")
                        end) ;;
         let mimeType := option_map type found in
         mimeType <- (if truthyString mimeType
                      then ret (orString mimeType "text/html")
                      else logEntry (Warn ("Couldn't determine mimetype for "
                                           ++ path_extname H u ++ ". Defaulting to html")) ;;
                           ret "text/html") ;;
         if String.eqb mimeType "text/html" && addSocket then
           tryCatch (modified <- lift (socketInjection H file) ;;
                     complete mimeType modified)
                    (fun _ => complete mimeType file)
         else complete mimeType file
     end)
    (fun ex =>
       logEntry (LogError ex) ;;
       res_setHeader "Content-Type" "text/html" ;;
       res_writeHead 500 ;;
       res_end (page500 u ex)).

(** What is sent for a regular file: the injected document when the type is
    [text/html], injection is asked for and succeeds; the file otherwise. *)
Definition payload (H : Host) (mime file : string) (addSocket : bool) : string :=
  if String.eqb mime "text/html" && addSocket then
    match socketInjection H file with
    | Normal modified => modified
    | _ => file
    end
  else file.

(** Unfolds the response calls and the monad down to pairs. *)
Ltac run_monad :=
  unfold complete, res_statusCode, res_setHeader, res_writeHead, res_end, onRes,
    logEntry, record, bind, tryCatch, lift, ret, throw, get, modify,
    setHeader, writeHead, endWith, headersSent, pathJoin, stat, readFile; simpl.

(** ** Vocabulary of the further properties *)

(** Whether an entry is selected for a URL, and the entry as the test
    leaves it. *)
Definition selects (E : Engine) (u : string) (x : Stack) : bool :=
  fst (test E (pattern x) u).
Definition tested (E : Engine) (u : string) (x : Stack) : Stack :=
  mkStack (snd (test E (pattern x) u)) (middleware x).


(** The routes of a config, and whether the engine takes them all. *)
Definition configured (c : Config) : list StackConfig :=
  match cfg_middlewares c with Some l => l | None => [] end.
Definition validStack (E : Engine) (x : StackConfig) : bool :=
  validRoute E (routeOrDefault (sc_route x)).

(** The warning [defaultHandler] logs when no entry has the extension. *)
Definition mimeWarning (H : Host) (l : list MimeType) (u : string) : list LogEntry :=
  let extension := replaceFirst "." EmptyString (path_extname H u) in
  if truthyString (option_map type (find (fun x => includes extension (extensions x)) l))
  then []
  else [Warn ("Couldn't determine mimetype for " ++ path_extname H u
              ++ ". Defaulting to html")].

(** What stays of a response once it is on the wire. *)
Definition sameSent (r r' : Response) : Prop :=
  sentHead r' = sentHead r /\ body r' = body r
  /\ finished r' = finished r /\ headers r' = headers r.


(** The table resolves an extension. *)
Definition resolves (ext : string) (l : list MimeType) : bool :=
  match find (fun x => includes ext (extensions x)) l with
  | Some _ => true
  | None => false
  end.

(** A handler whose promise never settles. *)
Definition stall : Middleware :=
  fun _ r next => mkRun r next Pending.

(** * Properties *)

(** ** Route compilation *)

Lemma delimiter_not_flag (d : ascii) : isDelimiter d = true -> isFlag d = false.
Proof.
  destruct d as [[] [] [] [] [] [] [] []]; vm_compute; congruence.
Qed.

Lemma allFlags_delimiter_inside (d : ascii) (s t : string) :
  isDelimiter d = true -> allFlags (s ++ String d t) = false.
Proof.
  intros Hd. induction s as [|c s IH]; simpl.
  - now rewrite (delimiter_not_flag d Hd).
  - rewrite IH. apply andb_false_r.
Qed.

Lemma matchBody_complete (d : ascii) (body fl : string) :
  isDelimiter d = true -> noLineTerminator body = true -> allFlags fl = true ->
  matchBody d (body ++ String d fl) = Some (body, fl).
Proof.
  intros Hd Hb Hf. induction body as [|c body IH]; simpl.
  - now rewrite Ascii.eqb_refl, Hf.
  - simpl in Hb. apply andb_prop in Hb as [Hc Hb].
    rewrite (allFlags_delimiter_inside d body fl Hd), andb_false_r.
    apply negb_true_iff in Hc. rewrite Hc, (IH Hb). reflexivity.
Qed.

Lemma matchBody_sound (d : ascii) (s body fl : string) :
  matchBody d s = Some (body, fl) ->
  s = body ++ String d fl /\ noLineTerminator body = true /\ allFlags fl = true.
Proof.
  revert body. induction s as [|c s IH]; simpl; intros body H; [discriminate|].
  destruct (Ascii.eqb c d && allFlags s) eqn:Hclose.
  - injection H as <- <-. apply andb_prop in Hclose as [Hc Hf].
    apply Ascii.eqb_eq in Hc. subst c. auto.
  - destruct (isLineTerminator c) eqn:Hlt; [discriminate|].
    destruct (matchBody d s) as [[b f]|]; [|discriminate].
    injection H as <- <-. destruct (IH b eq_refl) as (-> & Hb & Hf).
    simpl. rewrite Hlt. auto.
Qed.

Lemma matchRoute_complete (d : ascii) (body fl : string) :
  isDelimiter d = true -> noLineTerminator body = true -> allFlags fl = true ->
  matchRoute (delimited d body fl) = Some (d, body, fl).
Proof.
  intros Hd Hb Hf. unfold delimited, matchRoute.
  now rewrite Hd, (matchBody_complete d body fl Hd Hb Hf).
Qed.

Lemma matchRoute_sound (s : string) (d : ascii) (body fl : string) :
  matchRoute s = Some (d, body, fl) ->
  s = delimited d body fl /\ isDelimiter d = true
  /\ noLineTerminator body = true /\ allFlags fl = true.
Proof.
  destruct s as [|c s]; simpl; [discriminate|].
  destruct (isDelimiter c) eqn:Hd; [|discriminate].
  destruct (matchBody c s) as [[b f]|] eqn:Hm; [|discriminate].
  intros H. injection H as <- <- <-.
  destruct (matchBody_sound c s b f Hm) as (-> & Hb & Hf). unfold delimited. auto.
Qed.

Lemma stringToRegex_arguments (E : Engine) (s : string) :
  stringToRegex E s = newRegExp E (fst (routeArguments s)) (snd (routeArguments s)).
Proof.
  unfold stringToRegex, routeArguments.
  destruct (matchRoute s) as [[[d b] f]|]; reflexivity.
Qed.

(** *** The flag filter keeps first occurrences *)

Lemma indexOfFrom_first (c : ascii) (pre l : list ascii) (a : Z) :
  Z.eqb (indexOfFrom c (pre ++ c :: l) a) (a + Z.of_nat (length pre))
  = negb (existsb (Ascii.eqb c) pre).
Proof.
  revert a. induction pre as [|x pre IH]; intros a; simpl.
  - rewrite Ascii.eqb_refl. apply Z.eqb_eq. lia.
  - rewrite (Ascii.eqb_sym c x). destruct (Ascii.eqb x c) eqn:Hx; simpl.
    + apply Z.eqb_neq. lia.
    + rewrite <- (IH (a + 1)%Z). f_equal. lia.
Qed.

Lemma filterFrom_keepFirst (pre seen l : list ascii) :
  (forall c, existsb (Ascii.eqb c) seen = existsb (Ascii.eqb c) pre) ->
  filterFrom (fun i p k => Z.eqb (indexOf i k) p) (pre ++ l) l (Z.of_nat (length pre))
  = keepFirst seen l.
Proof.
  revert pre seen. induction l as [|c l IH]; intros pre seen Hseen; simpl; [reflexivity|].
  unfold indexOf at 1.
  replace (Z.of_nat (length pre)) with (0 + Z.of_nat (length pre))%Z at 1 by lia.
  rewrite indexOfFrom_first, <- Hseen.
  assert (Hstep : forall seen',
            (forall x, existsb (Ascii.eqb x) seen' = existsb (Ascii.eqb x) (pre ++ [c])) ->
            filterFrom (fun i p k => Z.eqb (indexOf i k) p) (pre ++ c :: l) l
              (Z.of_nat (length pre) + 1) = keepFirst seen' l).
  { intros seen' Hs.
    replace (pre ++ c :: l)%list with ((pre ++ [c]) ++ l)%list by now rewrite <- app_assoc.
    replace (Z.of_nat (length pre) + 1)%Z with (Z.of_nat (length (pre ++ [c])%list))
      by (rewrite length_app; simpl; lia).
    now apply IH. }
  destruct (existsb (Ascii.eqb c) seen) eqn:Hc; simpl.
  - apply Hstep. intros x. rewrite existsb_app, <- Hseen. simpl.
    destruct (Ascii.eqb x c) eqn:Hx; [|now rewrite orb_false_r].
    apply Ascii.eqb_eq in Hx. subst x. now rewrite Hc.
  - f_equal. apply Hstep. intros x. rewrite existsb_app, <- Hseen. simpl.
    rewrite orb_false_r. apply orb_comm.
Qed.

Lemma dedupFlags_keepFirst (fl : string) :
  dedupFlags fl = string_of_list_ascii (keepFirst [] (list_ascii_of_string fl)).
Proof.
  unfold dedupFlags, filterIndexed. f_equal.
  exact (filterFrom_keepFirst [] [] (list_ascii_of_string fl) (fun _ => eq_refl)).
Qed.

Lemma keepFirst_In (seen l : list ascii) (c : ascii) :
  In c (keepFirst seen l) <-> In c l /\ existsb (Ascii.eqb c) seen = false.
Proof.
  revert seen. induction l as [|x l IH]; intros seen; simpl; [tauto|].
  destruct (existsb (Ascii.eqb x) seen) eqn:Hx; simpl; rewrite IH; simpl.
  - split; [tauto|]. intros [[->|Hin] Hc]; [congruence|tauto].
  - destruct (Ascii.eqb c x) eqn:Hcx.
    + apply Ascii.eqb_eq in Hcx. subst x. simpl. split; [|tauto].
      intros [_|[_ Hf]]; [tauto|discriminate].
    + simpl. split.
      * intros [->|H]; [rewrite Ascii.eqb_refl in Hcx; discriminate|tauto].
      * intros [[->|H] Hc]; [rewrite Ascii.eqb_refl in Hcx; discriminate|tauto].
Qed.

Lemma keepFirst_NoDup (seen l : list ascii) : NoDup (keepFirst seen l).
Proof.
  revert seen. induction l as [|x l IH]; intros seen; simpl; [constructor|].
  destruct (existsb (Ascii.eqb x) seen); [apply IH|].
  constructor; [|apply IH].
  rewrite keepFirst_In. simpl. rewrite Ascii.eqb_refl. intros [_ H]. discriminate.
Qed.

(** C3 (amended).  Route compilation yields exactly one matcher per route, at
    registration: the route [*] yields the match-all pattern, which accepts
    every path, the empty one included; a delimited route (delimiter, body,
    the delimiter again, flag letters) whose body holds no line terminator
    yields the expression built from the body with each flag letter kept
    once, at its first occurrence, in order; every other string, a delimited
    one whose body holds a line terminator included, yields the expression
    built from the whole string with no flags. *)
Theorem route_compilation (E : Engine) :
  (forall mw s, addMiddleware E mw (Some "*") s = (Normal tt, pushed MatchAll mw s)
                /\ addMiddleware E mw None s = (Normal tt, pushed MatchAll mw s))
  /\ (forall path, test E MatchAll path = (true, MatchAll))
  /\ (forall d body fl,
        isDelimiter d = true -> noLineTerminator body = true -> allFlags fl = true ->
        stringToRegex E (delimited d body fl) = newRegExp E body (dedupFlags fl))
  /\ (forall fl,
        dedupFlags fl = string_of_list_ascii (keepFirst [] (list_ascii_of_string fl))
        /\ NoDup (list_ascii_of_string (dedupFlags fl))
        /\ (forall c, In c (list_ascii_of_string (dedupFlags fl))
                      <-> In c (list_ascii_of_string fl)))
  /\ (forall s,
        (forall d body fl,
            isDelimiter d = true -> noLineTerminator body = true ->
            allFlags fl = true -> s <> delimited d body fl) ->
        stringToRegex E s = newRegExp E s EmptyString)
  /\ (forall mw route s re,
        route <> "*" -> stringToRegex E route = Normal re ->
        addMiddleware E mw (Some route) s = (Normal tt, pushed (Compiled re) mw s)).
Proof.
  repeat split.
  - intros d body fl Hd Hb Hf. unfold stringToRegex.
    now rewrite (matchRoute_complete d body fl Hd Hb Hf).
  - apply dedupFlags_keepFirst.
  - rewrite dedupFlags_keepFirst, list_ascii_of_string_of_list_ascii.
    apply keepFirst_NoDup.
  - rewrite dedupFlags_keepFirst, list_ascii_of_string_of_list_ascii, keepFirst_In.
    tauto.
  - rewrite dedupFlags_keepFirst, list_ascii_of_string_of_list_ascii, keepFirst_In.
    auto.
  - intros s Hs. unfold stringToRegex.
    destruct (matchRoute s) as [[[d b] f]|] eqn:Hm; [|reflexivity].
    destruct (matchRoute_sound s d b f Hm) as (Heq & Hd & Hb & Hf).
    destruct (Hs d b f Hd Hb Hf Heq).
  - intros mw route s re Hr Hre. unfold addMiddleware, bind, lift, ret, modify. simpl.
    apply String.eqb_neq in Hr. rewrite Hr, Hre. reflexivity.
Qed.

Lemma route_compilation_witness :
  stringToRegex literalEngine "/a/b/gig" = Normal (mkRegExp "a/b" "gi" 0)
  /\ stringToRegex literalEngine "^/api" = Normal (mkRegExp "^/api" EmptyString 0).
Proof.
  destruct (route_compilation literalEngine) as (_ & _ & Hd & _ & Ho & _). split.
  - exact (Hd "/"%char "a/b" "gig" eq_refl eq_refl eq_refl).
  - apply (Ho "^/api"). intros d body fl Hd' _ _ Heq.
    unfold delimited in Heq. injection Heq as Hc _. subst d. discriminate Hd'.
Defined.

(** C3 as worded fails on a delimited route whose body holds a line feed:
    [.] does not match it, so the whole string, delimiters included, becomes
    the expression. *)
Lemma route_compilation_counterexample :
  ~ compilesDelimitedRoutes literalEngine ("/a" ++ nl ++ "b/").
Proof.
  intros H.
  specialize (H "/"%char ("a" ++ nl ++ "b") EmptyString eq_refl eq_refl eq_refl).
  assert (Hcode : stringToRegex literalEngine ("/a" ++ nl ++ "b/")
                  = Normal (mkRegExp ("/a" ++ nl ++ "b/") EmptyString 0))
    by (vm_compute; reflexivity).
  assert (Hclaim : newRegExp literalEngine ("a" ++ nl ++ "b") (dedupFlags EmptyString)
                   = Normal (mkRegExp ("a" ++ nl ++ "b") EmptyString 0))
    by (vm_compute; reflexivity).
  rewrite Hcode, Hclaim in H. discriminate H.
Qed.

(** ** Registration *)

(** C9.  When the engine refuses the route's pattern, [addMiddleware] itself
    throws and leaves the object, its middleware list included, as it was;
    for every other route it returns normally having appended exactly one
    entry after the existing ones, which keep their order. *)
Theorem addMiddleware_registration (E : Engine) (mw : Middleware)
  (route : option string) (s : ParvusServer) :
  (validRoute E (routeOrDefault route) = false ->
     exists e, addMiddleware E mw route s = (Throw e, s))
  /\ (validRoute E (routeOrDefault route) = true ->
     exists p, addMiddleware E mw route s = (Normal tt, pushed p mw s)
               /\ middlewares (pushed p mw s) = (middlewares s ++ [mkStack p mw])%list).
Proof.
  unfold validRoute, addMiddleware, routeOrDefault.
  set (r := match route with Some r => r | None => "*" end).
  unfold bind, lift, ret, modify.
  destruct (String.eqb r "*") eqn:Hr; simpl.
  - split; [discriminate|]. intros _. exists MatchAll. split; reflexivity.
  - rewrite stringToRegex_arguments. unfold newRegExp.
    destruct (re_valid E (fst (routeArguments r)) (snd (routeArguments r))).
    + split; [discriminate|]. intros _. eexists. split; reflexivity.
    + split; [|discriminate]. intros _. eexists. reflexivity.
Qed.

Lemma addMiddleware_registration_witness :
  (exists e, addMiddleware literalEngine silent (Some "/a(b/i") fieldInitializers
             = (Throw e, fieldInitializers))
  /\ (exists p, addMiddleware literalEngine silent (Some "/mw") fieldInitializers
                = (Normal tt, pushed p silent fieldInitializers)
                /\ middlewares (pushed p silent fieldInitializers)
                   = (middlewares fieldInitializers ++ [mkStack p silent])%list).
Proof.
  split.
  - apply (proj1 (addMiddleware_registration literalEngine silent (Some "/a(b/i")
                    fieldInitializers)). reflexivity.
  - apply (proj2 (addMiddleware_registration literalEngine silent (Some "/mw")
                    fieldInitializers)). reflexivity.
Defined.

(** ** What a computation leaves alone *)

Section Keeps.
Context {S : Type} (P : S -> Prop).

Lemma keeps_ret {A} (a : A) : keeps P (ret a).
Proof. intros s Hs. exact Hs. Qed.

Lemma keeps_throw {A} (e : Error) : keeps P (@throw S A e).
Proof. intros s Hs. exact Hs. Qed.

Lemma keeps_lift {A} (c : Completion A) : keeps P (lift c).
Proof. intros s Hs. exact Hs. Qed.

Lemma keeps_get : keeps P get.
Proof. intros s Hs. exact Hs. Qed.

Lemma keeps_modify (f : S -> S) : (forall s, P s -> P (f s)) -> keeps P (modify f).
Proof. intros Hf s Hs. simpl. auto. Qed.

Lemma keeps_bind {A B} (m : M S A) (k : A -> M S B) :
  keeps P m -> (forall a, keeps P (k a)) -> keeps P (bind m k).
Proof.
  intros Hm Hk s Hs. unfold bind. specialize (Hm s Hs).
  destruct (m s) as [[a|e|] s']; simpl in *; auto. now apply Hk.
Qed.

Lemma keeps_tryCatch {A} (m : M S A) (h : Error -> M S A) :
  keeps P m -> (forall e, keeps P (h e)) -> keeps P (tryCatch m h).
Proof.
  intros Hm Hh s Hs. unfold tryCatch. specialize (Hm s Hs).
  destruct (m s) as [[a|e|] s']; simpl in *; auto. now apply Hh.
Qed.

Lemma keeps_forEach {A} (xs : list A) (f : A -> M S unit) :
  (forall x, keeps P (f x)) -> keeps P (forEach xs f).
Proof.
  intros Hf. induction xs as [|x xs IH]; simpl.
  - apply keeps_ret.
  - apply keeps_bind; auto.
Qed.

End Keeps.

(** [addMiddleware] changes the middleware list and nothing else. *)
Lemma addMiddleware_keeps (E : Engine) (mw : Middleware) (route : option string)
  (P : ParvusServer -> Prop) :
  (forall s ms, P s -> P (setMiddlewares ms s)) ->
  keeps P (addMiddleware E mw route).
Proof.
  intros HP. unfold addMiddleware.
  apply keeps_bind.
  - destruct (String.eqb _ "*"); [apply keeps_ret|].
    apply keeps_bind; [apply keeps_lift|intros; apply keeps_ret].
  - intros p. apply keeps_modify. intros s Hs. now apply HP.
Qed.

(** ** MIME merge *)

Lemma mergedMimeTypes_map (this : ParvusServer) (additions base : list MimeType) :
  mimeTypes this = Some additions ->
  mergedMimeTypes this base = Normal (map (mergedEntry additions) base).
Proof.
  intros Hm. unfold mergedMimeTypes.
  induction base as [|b base IH]; simpl; [reflexivity|].
  rewrite IH. unfold mergeItem, mergedEntry, sameType. rewrite Hm.
  destruct (find _ additions); reflexivity.
Qed.

(** C5.  The merge maps the base table entry by entry: an entry whose type
    some addition shares comes out with its own extensions followed by those
    of that addition (the first such one in the additions); an entry no
    addition matches comes out unchanged; and an addition whose type matches
    no base entry leaves no entry of its type in the merged table. *)
Theorem mime_merge (this : ParvusServer) (additions base : list MimeType) :
  mimeTypes this = Some additions ->
  exists merged,
    mergedMimeTypes this base = Normal merged
    /\ length merged = length base
    /\ (forall i b, nth_error base i = Some b ->
          (forall a, find (sameType b) additions = Some a ->
             In a additions /\ type a = type b
             /\ nth_error merged i
                = Some (mkMime (type b) (name b) (extensions b ++ extensions a)))
          /\ ((exists a, In a additions /\ type a = type b) ->
              exists a, In a additions /\ type a = type b
                /\ nth_error merged i
                   = Some (mkMime (type b) (name b) (extensions b ++ extensions a)))
          /\ ((forall a, In a additions -> type a <> type b) ->
              nth_error merged i = Some b))
    /\ (forall a, In a additions -> (forall b, In b base -> type b <> type a) ->
          forall m, In m merged -> type m <> type a /\ m <> a).
Proof.
  intros Hm. exists (map (mergedEntry additions) base).
  split; [now apply mergedMimeTypes_map|].
  split; [apply length_map|].
  assert (Hfound : forall b a, find (sameType b) additions = Some a ->
                     In a additions /\ type a = type b).
  { intros b a Hf. apply find_some in Hf as [Hin Ht]. split; [exact Hin|].
    now apply String.eqb_eq in Ht. }
  split.
  - intros i b Hi. rewrite nth_error_map, Hi. simpl. unfold mergedEntry.
    split; [|split].
    + intros a Hf. destruct (Hfound b a Hf) as [Hin Ht]. rewrite Hf. auto.
    + intros (a & Hin & Ht).
      destruct (find (sameType b) additions) as [a'|] eqn:Hf.
      * destruct (Hfound b a' Hf) as [Hin' Ht']. exists a'. auto.
      * apply (find_none _ _ Hf) in Hin. unfold sameType in Hin.
        apply String.eqb_neq in Hin. contradiction.
    + intros Hno. destruct (find (sameType b) additions) as [a'|] eqn:Hf; [|reflexivity].
      destruct (Hfound b a' Hf) as [Hin' Ht']. destruct (Hno a' Hin' Ht').
  - intros a Hin Hno m Hmem. apply in_map_iff in Hmem as (b & <- & Hb).
    assert (Ht : type (mergedEntry additions b) = type b).
    { unfold mergedEntry. destruct (find _ additions); reflexivity. }
    split.
    + rewrite Ht. now apply Hno.
    + intros Heq. apply (Hno b Hb). now rewrite <- Heq, Ht.
Qed.

Lemma mime_merge_witness :
  exists merged,
    mergedMimeTypes (setMimeTypes (Some cssAdditions) fieldInitializers) cssBase
    = Normal merged
    /\ length merged = 2
    /\ nth_error merged 0 = Some (mkMime "text/css" "CSS" ["css"; "scss"])
    /\ nth_error merged 1 = Some (mkMime "text/html" "HTML" ["html"])
    /\ forall m, In m merged -> type m <> "text/x-foo".
Proof.
  destruct (mime_merge (setMimeTypes (Some cssAdditions) fieldInitializers)
              cssAdditions cssBase eq_refl) as (merged & Heq & Hlen & Hnth & Hdrop).
  exists merged. split; [exact Heq|]. split; [exact Hlen|]. split; [|split].
  - destruct (Hnth 0 _ eq_refl) as (H & _ & _).
    destruct (H _ eq_refl) as (_ & _ & H'). exact H'.
  - destruct (Hnth 1 _ eq_refl) as (_ & _ & H). apply H.
    intros a [<-|[<-|[]]]; discriminate.
  - intros m Hm.
    refine (proj1 (Hdrop (mkMime "text/x-foo" "Foo" ["foo"]) _ _ m Hm)).
    + right. left. reflexivity.
    + intros b [<-|[<-|[]]]; discriminate.
Defined.

(** ** Construction *)

Lemma orString_falsy (o : option string) (d : string) :
  truthyString o = false -> orString o d = d.
Proof. destruct o as [s|]; simpl; [|reflexivity]. now intros ->. Qed.

Lemma orNumber_falsy (o : option Z) (d : Z) :
  truthyNumber o = false -> orNumber o d = d.
Proof. destruct o as [n|]; simpl; [|reflexivity]. now intros ->. Qed.

Lemma orString_omitFalsy (o : option string) (d : string) :
  orString (omitFalsyString o) d = orString o d.
Proof.
  unfold omitFalsyString. destruct (truthyString o) eqn:Ho; [reflexivity|].
  now rewrite (orString_falsy o d Ho).
Qed.

Lemma orNumber_omitFalsy (o : option Z) (d : Z) :
  orNumber (omitFalsyNumber o) d = orNumber o d.
Proof.
  unfold omitFalsyNumber. destruct (truthyNumber o) eqn:Ho; [reflexivity|].
  now rewrite (orNumber_falsy o d Ho).
Qed.

Lemma orString_truthy (o : option string) (d : string) :
  d <> EmptyString -> orString o d <> EmptyString.
Proof.
  intros Hd. destruct o as [s|]; simpl; [|exact Hd].
  destruct (String.eqb s EmptyString) eqn:Hs; simpl; [exact Hd|].
  now apply String.eqb_neq.
Qed.

Lemma orNumber_truthy (o : option Z) (d : Z) :
  d <> 0%Z -> orNumber o d <> 0%Z.
Proof.
  intros Hd. destruct o as [n|]; simpl; [|exact Hd].
  destruct (Z.eqb n 0) eqn:Hn; simpl; [exact Hd|]. now apply Z.eqb_neq.
Qed.

(** The registrations of the constructor leave the scalar fields alone. *)
Lemma registrations_keep (E : Engine) (ms : option (list StackConfig))
  (P : ParvusServer -> Prop) :
  (forall s l, P s -> P (setMiddlewares l s)) ->
  keeps P (match ms with
           | Some l => forEach l (fun x => addMiddleware E (sc_middleware x) (sc_route x))
           | None => ret tt
           end).
Proof.
  intros HP. destruct ms as [l|]; [|apply keeps_ret].
  apply keeps_forEach. intros x. now apply addMiddleware_keeps.
Qed.

(** With a config, every scalar field is the config's value or its default. *)
Lemma constructor_fields (E : Engine) (c : Config) (s : ParvusServer) :
  newParvusServer E (Some c) = Normal s ->
  host s = Some (orString (cfg_host c) "localhost")
  /\ port s = Some (orNumber (cfg_port c) 62295)
  /\ directory s = Some (orString (cfg_directory c) "site")
  /\ subfolder s = cfg_subfolder c
  /\ mimeTypes s = Some (match cfg_additionalMimeTypes c with
                         | Some l => l
                         | None => []
                         end)
  /\ (cfg_middlewares c = None -> middlewares s = []).
Proof.
  unfold newParvusServer, constructor. unfold bind at 1 2 3 4. simpl.
  set (s0 := setSubfolder _ _).
  pose proof (registrations_keep E (cfg_middlewares c)
                (fun s => host s = host s0 /\ port s = port s0
                          /\ directory s = directory s0 /\ subfolder s = subfolder s0)
                (fun s l H => H) s0 (conj eq_refl (conj eq_refl (conj eq_refl eq_refl))))
    as Hk.
  assert (Hnone : cfg_middlewares c = None ->
            middlewares (snd ((match cfg_middlewares c with
               | Some l => forEach l (fun x => addMiddleware E (sc_middleware x) (sc_route x))
               | None => ret tt
               end) s0)) = []).
  { intros ->. reflexivity. }
  unfold bind.
  destruct ((match cfg_middlewares c with
             | Some l => forEach l (fun x => addMiddleware E (sc_middleware x) (sc_route x))
             | None => ret tt
             end) s0) as [[[]|e|] s1]; simpl in *; intros H; try discriminate.
  injection H as <-. simpl. destruct Hk as (-> & -> & -> & ->). auto 10.
Qed.

(** C8 at the input it fails on: without a config object the constructor
    body does nothing, so every field but the initialised [middlewares] and
    [connectedBefore] stays undefined, none takes its default. *)
Theorem constructor_without_config (E : Engine) :
  exists s,
    newParvusServer E None = Normal s
    /\ host s = None /\ port s = None /\ directory s = None
    /\ subfolder s = None /\ mimeTypes s = None /\ middlewares s = [].
Proof. exists fieldInitializers. repeat split. Qed.

(** With a config object, each omitted field does take its default. *)
Lemma constructor_defaults (E : Engine) :
  exists s,
    newParvusServer E (Some emptyConfig) = Normal s
    /\ host s = Some "localhost" /\ port s = Some 62295%Z
    /\ directory s = Some "site" /\ subfolder s = None
    /\ middlewares s = [] /\ mimeTypes s = Some [].
Proof. eexists. repeat split. Qed.

(** A server built without a config cannot start: the merge reads
    [this.mimeTypes], which is undefined. *)
Lemma start_without_config (E : Engine) (b : MimeType) (base : list MimeType) :
  fst (startAsync (Normal (b :: base)) (mkWorld fieldInitializers [] freshResponse []))
  = Throw (undefinedRead "find").
Proof. reflexivity. Qed.

(** C10.  With a config object, a falsy host, port or directory is read as
    an omitted one: the constructor does the same on the config and on the
    config with these falsy fields left out, so the object never holds an
    empty host or directory or the port 0. *)
Theorem falsy_config_fields (E : Engine) (c : Config) :
  constructor E (Some c) = constructor E (Some (omitFalsy c))
  /\ (forall s, newParvusServer E (Some c) = Normal s ->
        (truthyString (cfg_host c) = false -> host s = Some "localhost")
        /\ (truthyNumber (cfg_port c) = false -> port s = Some 62295%Z)
        /\ (truthyString (cfg_directory c) = false -> directory s = Some "site")
        /\ host s <> Some EmptyString /\ host s <> None
        /\ port s <> Some 0%Z /\ port s <> None
        /\ directory s <> Some EmptyString /\ directory s <> None).
Proof.
  split.
  - unfold constructor, omitFalsy. simpl.
    now rewrite !orString_omitFalsy, orNumber_omitFalsy.
  - intros s Hs. destruct (constructor_fields E c s Hs) as (Hh & Hp & Hd & _).
    rewrite Hh, Hp, Hd. repeat split; try discriminate.
    + intros H. now rewrite (orString_falsy _ _ H).
    + intros H. now rewrite (orNumber_falsy _ _ H).
    + intros H. now rewrite (orString_falsy _ _ H).
    + intros H. injection H as H. revert H. now apply orString_truthy.
    + intros H. injection H as H. revert H. now apply orNumber_truthy.
    + intros H. injection H as H. revert H. now apply orString_truthy.
Qed.

Lemma falsy_config_fields_witness :
  newParvusServer literalEngine
    (Some (mkConfig (Some EmptyString) (Some 0%Z) None None (Some EmptyString) None))
  = newParvusServer literalEngine (Some emptyConfig)
  /\ host (snd (constructor literalEngine
                  (Some (mkConfig (Some EmptyString) (Some 0%Z) None None
                           (Some EmptyString) None)) fieldInitializers))
     = Some "localhost".
Proof.
  split.
  - unfold newParvusServer.
    now rewrite (proj1 (falsy_config_fields literalEngine
                          (mkConfig (Some EmptyString) (Some 0%Z) None None
                             (Some EmptyString) None))).
  - refine (proj1 (proj2 (falsy_config_fields literalEngine
                            (mkConfig (Some EmptyString) (Some 0%Z) None None
                               (Some EmptyString) None)) _ eq_refl) eq_refl).
Defined.

(** ** Static file resolution *)

(** The prologue of [defaultHandler], up to the [try]. *)
Lemma candidate_cases (H : Host) (this : ParvusServer) (req : Request)
  (dir d : option string) (u : string) :
  candidate H this req dir = Some (d, u) ->
  exists u0,
    url_pathname H (url req) = Some u0
    /\ match subfolder this with
       | Some sub =>
           if truthyString (Some sub) then
             exists d0,
               (if truthyString dir then dir else directory this) = Some d0
               /\ d = Some (replaceFirst sub EmptyString d0)
               /\ u = replaceFirst sub EmptyString
                        (if endsWith u0 "/" then u0 ++ "index.html" else u0)
           else d = (if truthyString dir then dir else directory this)
                /\ u = (if endsWith u0 "/" then u0 ++ "index.html" else u0)
       | None => d = (if truthyString dir then dir else directory this)
                 /\ u = (if endsWith u0 "/" then u0 ++ "index.html" else u0)
       end.
Proof.
  unfold candidate. destruct (url_pathname H (url req)) as [u0|]; [|discriminate].
  intros Hc. exists u0. split; [reflexivity|].
  destruct (subfolder this) as [sub|].
  - destruct (truthyString (Some sub)).
    + destruct (if truthyString dir then dir else directory this) as [d0|];
        [|discriminate].
      injection Hc as <- <-. exists d0. auto.
    + injection Hc as <- <-. auto.
  - simpl in Hc. injection Hc as <- <-. auto.
Qed.

Lemma defaultHandler_resolve (H : Host) (req : Request) (dir d : option string)
  (u : string) (addSocket : bool) (w : World) :
  candidate H (this w) req dir = Some (d, u) ->
  defaultHandler H req dir addSocket w
  = resolve H d u addSocket
      (mkWorld (this w) (console w) (res w) (trace w ++ [DefaultHandlerCalled])).
Proof.
  intros Hc. destruct (candidate_cases H (this w) req dir d u Hc) as (u0 & Hu & Hs).
  unfold defaultHandler, resolve.
  unfold bind at 1. unfold record, modify. cbn [fst snd].
  unfold bind at 1. unfold lift. rewrite Hu.
  unfold bind at 1. unfold get. cbn [this].
  destruct (subfolder (this w)) as [sub|].
  - destruct (truthyString (Some sub)).
    + destruct Hs as (d0 & Hd0 & -> & ->). rewrite Hd0. reflexivity.
    + destruct Hs as (-> & ->). reflexivity.
  - destruct Hs as (-> & ->). reflexivity.
Qed.

Lemma resolve_not_found (H : Host) (d u : string) (addSocket : bool) (w : World) :
  fs H (path_join H d u) = None -> unsent (res w) ->
  resolve H (Some d) u addSocket w
  = (Normal tt,
     mkWorld (this w) (console w) (answered (res w) 404 "text/html" page404) (trace w)).
Proof.
  intros Hfs [Hhead Hfin]. unfold resolve, answered. run_monad.
  rewrite Hfs. simpl. rewrite Hhead, Hfin. simpl. reflexivity.
Qed.

Lemma resolve_directory (H : Host) (d u : string) (addSocket : bool) (w : World) :
  fs H (path_join H d u) = Some Directory -> unsent (res w) ->
  resolve H (Some d) u addSocket w
  = (Normal tt,
     mkWorld (this w)
       (console w ++ [LogError (systemError "EISDIR" (path_join H d u))])
       (answered (res w) 500 "text/html"
          (page500 u (systemError "EISDIR" (path_join H d u))))
       (trace w)).
Proof.
  intros Hfs [Hhead Hfin]. unfold resolve, answered. run_monad.
  rewrite Hfs. simpl. rewrite Hhead, Hfin. simpl. reflexivity.
Qed.

Lemma bind_normal {S A B} (m : M S A) (k : A -> M S B) (s s' : S) (a : A) :
  m s = (Normal a, s') -> bind m k s = k a s'.
Proof. intros Hm. unfold bind. now rewrite Hm. Qed.

Lemma tryCatch_normal {S A} (m : M S A) (h : Error -> M S A) (s s' : S) (a : A) :
  m s = (Normal a, s') -> tryCatch m h s = (Normal a, s').
Proof. intros Hm. unfold tryCatch. now rewrite Hm. Qed.

Lemma tryCatch_throw {S A} (m : M S A) (h : Error -> M S A) (s s' : S) (e : Error) :
  m s = (Throw e, s') -> tryCatch m h s = h e s'.
Proof. intros Hm. unfold tryCatch. now rewrite Hm. Qed.

Lemma complete_unsent (mime input : string) (w : World) :
  unsent (res w) ->
  complete mime input w = (Normal tt, setRes (answered (res w) 200 mime input) w).
Proof.
  intros [Hhead Hfin]. unfold answered. run_monad.
  rewrite Hhead, Hfin. simpl. reflexivity.
Qed.

Lemma socketInjection_settles (H : Host) (html : string) :
  socketInjection H html <> Hang.
Proof.
  unfold socketInjection, appendChild.
  destruct (querySelector (jsdom_parse H html) "body"); discriminate.
Qed.

Lemma resolve_file (H : Host) (d u file : string) (addSocket : bool)
  (l : list MimeType) (w : World) :
  fs H (path_join H d u) = Some (RegularFile file) ->
  mimeTypes (this w) = Some l -> unsent (res w) ->
  exists logs,
    resolve H (Some d) u addSocket w
    = (Normal tt,
       mkWorld (this w) (console w ++ logs)
         (answered (res w) 200 (mimeOf H l u) (payload H (mimeOf H l u) file addSocket))
         (trace w)).
Proof.
  intros Hfs Hm Hun. unfold resolve, payload, mimeOf.
  set (found := option_map type (find _ l)).
  set (mime := if truthyString found then orString found "text/html" else "text/html").
  assert (Hserve : forall w0 : World, res w0 = res w ->
            (if String.eqb mime "text/html" && addSocket
             then tryCatch (modified <- lift (socketInjection H file) ;;
                            complete mime modified)
                           (fun _ => complete mime file)
             else complete mime file) w0
            = (Normal tt,
               setRes (answered (res w) 200 mime
                         (if String.eqb mime "text/html" && addSocket
                          then match socketInjection H file with
                               | Normal modified => modified
                               | _ => file
                               end
                          else file)) w0)).
  { intros w0 Hw0. assert (Hun0 : unsent (res w0)) by now rewrite Hw0.
    destruct (String.eqb mime "text/html" && addSocket).
    - pose proof (socketInjection_settles H file) as Hs.
      destruct (socketInjection H file) as [modified|e|] eqn:Hinj; [| |now destruct Hs].
      + erewrite tryCatch_normal; [reflexivity|].
        erewrite bind_normal; [|reflexivity].
        rewrite (complete_unsent _ _ _ Hun0), Hw0. reflexivity.
      + erewrite tryCatch_throw; [|reflexivity].
        rewrite (complete_unsent _ _ _ Hun0), Hw0. reflexivity.
    - rewrite (complete_unsent _ _ _ Hun0), Hw0. reflexivity. }
  exists (if truthyString found then []
          else [Warn ("Couldn't determine mimetype for "
                      ++ path_extname H u ++ ". Defaulting to html")]).
  apply tryCatch_normal.
  erewrite bind_normal; [|reflexivity].
  erewrite bind_normal;
    [|unfold tryCatch, bind, lift, stat; rewrite Hfs; reflexivity].
  cbv beta iota.
  erewrite bind_normal; [|unfold lift, readFile; rewrite Hfs; reflexivity].
  erewrite bind_normal; [|reflexivity].
  erewrite bind_normal; [|unfold lift; rewrite Hm; reflexivity].
  fold found. subst mime.
  destruct (truthyString found) eqn:Ht.
  - erewrite bind_normal; [|reflexivity].
    rewrite Hserve by reflexivity. rewrite app_nil_r. destruct w; reflexivity.
  - erewrite bind_normal; [|reflexivity].
    rewrite Hserve by reflexivity. reflexivity.
Qed.

Lemma getHeader_putHeader (n v : string) (hs : list (string * string)) :
  getHeader n (putHeader n v hs) = Some v.
Proof.
  induction hs as [|[n' v'] hs IH]; simpl.
  - now rewrite String.eqb_refl.
  - destruct (String.eqb n' n) eqn:Hn; simpl.
    + now rewrite String.eqb_refl.
    + now rewrite Hn.
Qed.

(** C4 (amended).  On a response nothing has been sent on, a request whose
    candidate path does not exist ([fs.stat] fails) is answered with status
    404, content type [text/html] and the fixed page, quietly; a candidate
    path that exists without being a regular file (a directory) is answered
    with the 500 error page instead. *)
Theorem static_not_found (H : Host) (req : Request) (dir : option string)
  (addSocket : bool) (w : World) (d u : string) :
  candidate H (this w) req dir = Some (Some d, u) ->
  unsent (res w) ->
  (fs H (path_join H d u) = None ->
     defaultHandler H req dir addSocket w
     = (Normal tt,
        mkWorld (this w) (console w) (answered (res w) 404 "text/html" page404)
          (trace w ++ [DefaultHandlerCalled]))
     /\ exists hs,
          sentHead (res (snd (defaultHandler H req dir addSocket w))) = Some (404%Z, hs)
          /\ getHeader "content-type" hs = Some "text/html"
          /\ body (res (snd (defaultHandler H req dir addSocket w)))
             = body (res w) ++ page404
          /\ finished (res (snd (defaultHandler H req dir addSocket w))) = true)
  /\ (fs H (path_join H d u) = Some Directory ->
      res (snd (defaultHandler H req dir addSocket w))
      = answered (res w) 500 "text/html"
          (page500 u (systemError "EISDIR" (path_join H d u)))
      /\ exists hs,
           sentHead (res (snd (defaultHandler H req dir addSocket w))) = Some (500%Z, hs)).
Proof.
  intros Hc Hun. rewrite (defaultHandler_resolve H req dir (Some d) u addSocket w Hc).
  split; intros Hfs.
  - rewrite resolve_not_found by assumption. split; [reflexivity|].
    eexists. split; [reflexivity|]. split; [apply getHeader_putHeader|].
    split; reflexivity.
  - rewrite resolve_directory by assumption. split; [reflexivity|].
    eexists. reflexivity.
Qed.

Lemma static_not_found_witness :
  res (snd (defaultHandler exampleHost (mkRequest "/nope" "GET") None true
              (started (Some emptyConfig))))
  = answered freshResponse 404 "text/html" page404.
Proof.
  rewrite (proj1 (proj1 (static_not_found exampleHost (mkRequest "/nope" "GET") None true
                           (started (Some emptyConfig)) "site" "/nope"
                           eq_refl (conj eq_refl eq_refl)) eq_refl)).
  reflexivity.
Defined.

(** C4 as worded fails on a directory: it is not a regular file, [fs.stat]
    succeeds on it, [fs.readFile] throws, and the answer is the 500 page. *)
Lemma static_not_found_counterexample :
  ~ notFoundUnlessRegularFile exampleHost (mkRequest "/docs" "GET")
      (started (Some emptyConfig)).
Proof.
  intros Hc. specialize (Hc "site" "/docs" eq_refl).
  assert (Hdir : forall c, fs exampleHost (path_join exampleHost "site" "/docs")
                           <> Some (RegularFile c)) by (intros c; discriminate).
  specialize (Hc Hdir).
  assert (Hcode : statusCode (res (snd (defaultHandler exampleHost
                    (mkRequest "/docs" "GET") None true (started (Some emptyConfig)))))
                  = 500%Z)
    by (vm_compute; reflexivity).
  rewrite Hc in Hcode. discriminate Hcode.
Qed.

(** ** Injection *)

Lemma findNode_Element (t t' : string) (a : list (string * string)) (ks : list Node) :
  findNode t (Element t' a ks)
  = if String.eqb t' t then Some [] else findForest t ks 0.
Proof.
  simpl. destruct (String.eqb t' t); [reflexivity|].
  generalize 0. induction ks as [|k ks IH]; intros i; simpl; [reflexivity|].
  destruct (findNode t k); [reflexivity|apply IH].
Qed.

Lemma findForest_first (t : string) (l : list Node) (i : nat) (p : Path) :
  findForest t l i = Some p ->
  exists j rest n,
    p = (i + j) :: rest /\ nth_error l j = Some n /\ findNode t n = Some rest.
Proof.
  revert i. induction l as [|k l IH]; intros i; simpl; [discriminate|].
  destruct (findNode t k) as [q|] eqn:Hk.
  - intros Hp. injection Hp as <-. exists 0, q, k. rewrite Nat.add_0_r. auto.
  - intros Hp. destruct (IH (S i) Hp) as (j & rest & n & -> & Hn & Hf).
    exists (S j), rest, n. rewrite Nat.add_succ_r. auto.
Qed.

Lemma findForest_none (t : string) (l : list Node) (i : nat) :
  findForest t l i = None -> forall n, In n l -> findNode t n = None.
Proof.
  revert i. induction l as [|k l IH]; intros i; simpl; [intros _ n []|].
  destruct (findNode t k) eqn:Hk; [discriminate|].
  intros Hl n [<-|Hin]; [exact Hk|]. exact (IH (S i) Hl n Hin).
Qed.

(** [querySelector] answers with a reference to an element of that tag. *)
Lemma querySelector_sound (t : string) (p : Path) (doc : list Node) :
  findForest t doc 0 = Some p ->
  exists a ks, getNode doc p = Some (Element t a ks).
Proof.
  revert doc. induction p as [|j rest IH]; intros doc Hp.
  - destruct (findForest_first t doc 0 [] Hp) as (j & rest & n & Heq & _). discriminate.
  - destruct (findForest_first t doc 0 _ Hp) as (j' & rest' & n & Heq & Hn & Hf).
    simpl in Heq. injection Heq as -> ->. simpl. rewrite Hn.
    destruct n as [t' a ks|d|d|d]; try discriminate.
    rewrite findNode_Element in Hf.
    destruct (String.eqb t' t) eqn:Ht.
    + injection Hf as <-. apply String.eqb_eq in Ht. subst t'. eauto.
    + destruct rest' as [|j2 rest2].
      * destruct (findForest_first t ks 0 [] Hf) as (? & ? & ? & Heq & _). discriminate.
      * now apply IH.
Qed.

(** ... and it answers whenever there is one. *)
Lemma querySelector_complete (t : string) (doc : list Node) :
  hasElement t doc -> findForest t doc 0 <> None.
Proof.
  intros (q & a & ks & Hq). revert doc Hq.
  induction q as [|j rest IH]; intros doc Hq; simpl in Hq; [discriminate|].
  destruct (nth_error doc j) as [n|] eqn:Hn; [|discriminate].
  intros Hnone. pose proof (findForest_none t doc 0 Hnone n (nth_error_In _ _ Hn)) as Hf.
  destruct rest as [|j2 rest2].
  - injection Hq as ->. rewrite findNode_Element, String.eqb_refl in Hf. discriminate.
  - destruct n as [t' a' ks'|d|d|d]; try discriminate.
    rewrite findNode_Element in Hf.
    destruct (String.eqb t' t); [discriminate|]. exact (IH ks' Hq Hf).
Qed.

Lemma mapNth_split {A} (f : A -> A) (l1 l2 : list A) (x : A) :
  mapNth (length l1) f (l1 ++ x :: l2) = (l1 ++ f x :: l2)%list.
Proof. induction l1 as [|y l1 IH]; simpl; [reflexivity|now rewrite IH]. Qed.

Lemma mapNth_ext {A} (f g : A -> A) (i : nat) (l : list A) :
  (forall x, f x = g x) -> mapNth i f l = mapNth i g l.
Proof.
  intros Hfg. revert i. induction l as [|x l IH]; intros [|i]; simpl; try reflexivity.
  - now rewrite Hfg.
  - now rewrite IH.
Qed.

Lemma mapNth_twice {A} (f g : A -> A) (i : nat) (l : list A) :
  mapNth i g (mapNth i f l) = mapNth i (fun x => g (f x)) l.
Proof.
  revert i. induction l as [|x l IH]; intros [|i]; simpl; try reflexivity.
  now rewrite IH.
Qed.

Lemma mapNth_at {A} (f g : A -> A) (i : nat) (l : list A) (x : A) :
  nth_error l i = Some x -> f x = g x -> mapNth i f l = mapNth i g l.
Proof.
  revert i. induction l as [|y l IH]; intros [|i]; simpl; try discriminate.
  - intros Hx Hfg. injection Hx as ->. now rewrite Hfg.
  - intros Hx Hfg. now rewrite (IH i Hx Hfg).
Qed.

(** Two updates through the same reference compose. *)
Lemma updateAt_twice (f g : Node -> Node) (p : Path) (doc : list Node) :
  updateAt g (updateAt f doc p) p = updateAt (fun n => g (f n)) doc p.
Proof.
  revert doc. induction p as [|j rest IH]; intros doc; simpl; [reflexivity|].
  rewrite mapNth_twice. apply mapNth_ext. intros n.
  destruct rest as [|j2 rest2]; [reflexivity|].
  destruct n as [t a ks|d|d|d]; try reflexivity.
  now rewrite IH.
Qed.

(** An update only looks at the node the reference points to. *)
Lemma updateAt_at (f : Node -> Node) (p : Path) (doc : list Node) (n : Node) :
  getNode doc p = Some n -> updateAt f doc p = updateAt (fun _ => f n) doc p.
Proof.
  revert doc. induction p as [|j rest IH]; intros doc; simpl; [reflexivity|].
  destruct (nth_error doc j) as [m|] eqn:Hm; [|discriminate].
  intros Hn. apply (mapNth_at _ _ j doc m Hm).
  destruct rest as [|j2 rest2].
  - now injection Hn as ->.
  - destruct m as [t a ks|d|d|d]; try discriminate. now rewrite (IH ks Hn).
Qed.

(** Replacing the children of the element a reference points to changes the
    token stream between its two tags and nowhere else. *)
Lemma update_tokens (p : Path) (doc : list Node) (t : string)
  (a : list (string * string)) (ks : list Node) :
  getNode doc p = Some (Element t a ks) ->
  exists pre post,
    docTokens doc = (pre ++ Open t a :: docTokens ks ++ Close t :: post)%list
    /\ forall ks',
         docTokens (updateAt (fun _ => Element t a ks') doc p)
         = (pre ++ Open t a :: docTokens ks' ++ Close t :: post)%list
         /\ getNode (updateAt (fun _ => Element t a ks') doc p) p
            = Some (Element t a ks').
Proof.
  revert doc. induction p as [|j rest IH]; intros doc; simpl; [discriminate|].
  destruct (nth_error doc j) as [n|] eqn:Hn; [|discriminate].
  destruct (nth_error_split doc j Hn) as (l1 & l2 & -> & <-).
  intros Hq. unfold docTokens in *. rewrite !flat_map_app. simpl.
  assert (Hnth : forall m, nth_error (l1 ++ m :: l2) (length l1) = Some m).
  { intros m. rewrite nth_error_app2 by lia. now rewrite Nat.sub_diag. }
  destruct rest as [|j2 rest2].
  - injection Hq as ->. exists (flat_map tokens l1), (flat_map tokens l2). split.
    + simpl. now rewrite <- !app_assoc.
    + intros ks'. rewrite mapNth_split, flat_map_app, Hnth. simpl.
      now rewrite <- !app_assoc.
  - destruct n as [t' a' ks0|d|d|d]; try discriminate.
    destruct (IH ks0 Hq) as (pre0 & post0 & Htok & Hupd).
    exists (flat_map tokens l1 ++ Open t' a' :: pre0)%list,
           (post0 ++ Close t' :: flat_map tokens l2)%list.
    split.
    + simpl. rewrite Htok. rewrite <- !app_assoc. simpl.
      rewrite <- !app_assoc. reflexivity.
    + intros ks'. destruct (Hupd ks') as [Htok' Hget'].
      rewrite mapNth_split, flat_map_app, Hnth. cbn [flat_map tokens app].
      rewrite Htok'. split; [|exact Hget'].
      rewrite <- !app_assoc. simpl. rewrite <- !app_assoc. reflexivity.
Qed.

(** The tree [socketInjection] serializes, when there is a body. *)
Lemma injected_tree (doc : list Node) (p : Path) (a : list (string * string))
  (ks : list Node) :
  getNode doc p = Some (Element "body" a ks) ->
  updateAt (addChild reloadScript) (updateAt (addChild clientScript) doc p) p
  = updateAt (fun _ => Element "body" a (ks ++ [clientScript; reloadScript])) doc p.
Proof.
  intros Hp. rewrite updateAt_twice, (updateAt_at _ p doc _ Hp). simpl.
  now rewrite <- app_assoc.
Qed.

(** C6.  When the parsed document has a body element, [socketInjection]
    returns the serialization of the same document with exactly two script
    elements (the client library, then the inline reload subscription)
    appended as the last children of its body, everything else in place;
    when it has none, [socketInjection] throws, and [defaultHandler] answers
    200 with the file as read. *)
Theorem socket_injection (H : Host) (html : string) :
  (hasElement "body" (jsdom_parse H html) ->
   exists p a ks pre post doc',
     querySelector (jsdom_parse H html) "body" = Some p
     /\ getNode (jsdom_parse H html) p = Some (Element "body" a ks)
     /\ socketInjection H html = Normal (jsdom_serialize H doc')
     /\ getNode doc' p = Some (Element "body" a (ks ++ [clientScript; reloadScript]))
     /\ docTokens (jsdom_parse H html)
        = (pre ++ Open "body" a :: docTokens ks ++ Close "body" :: post)%list
     /\ docTokens doc'
        = (pre ++ Open "body" a :: docTokens ks
               ++ docTokens [clientScript; reloadScript] ++ Close "body" :: post)%list
     /\ countElements "script" doc'
        = countElements "script" (jsdom_parse H html) + 2)
  /\ (~ hasElement "body" (jsdom_parse H html) ->
      (exists e, socketInjection H html = Throw e)
      /\ forall req dir w d u l,
           candidate H (this w) req dir = Some (Some d, u) ->
           fs H (path_join H d u) = Some (RegularFile html) ->
           mimeTypes (this w) = Some l ->
           mimeOf H l u = "text/html" ->
           unsent (res w) ->
           fst (defaultHandler H req dir true w) = Normal tt
           /\ res (snd (defaultHandler H req dir true w))
              = answered (res w) 200 "text/html" html).
Proof.
  split.
  - intros Hbody. pose proof (querySelector_complete "body" _ Hbody) as Hsome.
    destruct (findForest "body" (jsdom_parse H html) 0) as [p|] eqn:Hp;
      [|now destruct Hsome].
    destruct (querySelector_sound "body" p _ Hp) as (a & ks & Hget).
    destruct (update_tokens p _ "body" a ks Hget) as (pre & post & Htok & Hupd).
    destruct (Hupd (ks ++ [clientScript; reloadScript])%list) as [Htok' Hget'].
    exists p, a, ks, pre, post,
      (updateAt (fun _ => Element "body" a (ks ++ [clientScript; reloadScript]))
         (jsdom_parse H html) p).
    split; [exact Hp|]. split; [exact Hget|]. split.
    { unfold socketInjection, querySelector. rewrite Hp. simpl.
      now rewrite (injected_tree _ p a ks Hget). }
    split; [exact Hget'|]. split; [exact Htok|].
    assert (Happ : docTokens (ks ++ [clientScript; reloadScript])
                   = (docTokens ks ++ docTokens [clientScript; reloadScript])%list)
      by apply flat_map_app.
    split.
    + rewrite Htok', Happ, <- app_assoc. reflexivity.
    + unfold countElements. rewrite Htok', Htok, Happ.
      rewrite !filter_app. cbn [filter opens]. rewrite !filter_app.
      cbn [filter opens]. rewrite !length_app. simpl. rewrite !length_app. simpl. lia.
  - intros Hno.
    assert (Hq : querySelector (jsdom_parse H html) "body" = None).
    { unfold querySelector.
      destruct (findForest "body" (jsdom_parse H html) 0) as [p|] eqn:Hp; [|reflexivity].
      destruct (querySelector_sound "body" p _ Hp) as (a & ks & Hget).
      destruct Hno. now exists p, a, ks. }
    assert (Hthrow : socketInjection H html
                     = Throw (TypeError "Cannot read properties of null (reading 'appendChild')")).
    { unfold socketInjection. now rewrite Hq. }
    split; [eauto|].
    intros req dir w d u l Hc Hfs Hm Hmime Hun.
    rewrite (defaultHandler_resolve H req dir (Some d) u true w Hc).
    destruct (resolve_file H d u html true l
                (mkWorld (this w) (console w) (res w) (trace w ++ [DefaultHandlerCalled]))
                Hfs Hm Hun) as (logs & ->).
    rewrite Hmime. unfold payload. rewrite Hthrow. simpl. auto.
Qed.

Lemma socket_injection_witness :
  (exists out, socketInjection exampleHost "<p>hi</p>" = Normal out)
  /\ res (snd (defaultHandler exampleHost (mkRequest "/frames.html" "GET") None true
                 (started (Some emptyConfig))))
     = answered freshResponse 200 "text/html" "<frameset></frameset>".
Proof.
  split.
  - destruct (proj1 (socket_injection exampleHost "<p>hi</p>"))
      as (p & a & ks & pre & post & doc' & _ & _ & Hout & _).
    + exists [0; 1], [], [Text "<p>hi</p>"]. reflexivity.
    + eauto.
  - refine (proj2 (proj2 (proj2 (socket_injection exampleHost "<frameset></frameset>") _)
                     (mkRequest "/frames.html" "GET") None (started (Some emptyConfig))
                     "site" "/frames.html" exampleMimes
                     eq_refl eq_refl eq_refl eq_refl (conj eq_refl eq_refl))).
    intros Hbody. now apply (querySelector_complete "body" _ Hbody).
Defined.

(** ** Dispatch *)

(** Properties of the world that setting the response or logging cannot
    break are kept by [defaultHandler] after its first step. *)
Section ResponseBlind.
Context (P : World -> Prop).
Hypothesis P_res : forall w r, P w -> P (setRes r w).
Hypothesis P_log : forall w l,
  P w -> P (mkWorld (this w) (console w ++ [l]) (res w) (trace w)).

Lemma keeps_onRes (f : Response -> Completion Response) : keeps P (onRes f).
Proof.
  intros w Hw. unfold onRes. destruct (f (res w)); simpl; auto.
Qed.

Lemma keeps_logEntry (l : LogEntry) : keeps P (logEntry l).
Proof. intros w Hw. simpl. auto. Qed.

Lemma keeps_complete (mime input : string) : keeps P (complete mime input).
Proof.
  unfold complete, res_setHeader, res_writeHead, res_end.
  repeat (apply keeps_bind; [apply keeps_onRes|intros]). apply keeps_onRes.
Qed.

Lemma keeps_resolve (H : Host) (d : option string) (u : string) (addSocket : bool) :
  keeps P (resolve H d u addSocket).
Proof.
  unfold resolve, res_statusCode, res_setHeader, res_writeHead, res_end.
  apply keeps_tryCatch.
  - apply keeps_bind; [apply keeps_lift|intros filePath].
    apply keeps_bind.
    { apply keeps_tryCatch; [|intros; apply keeps_ret].
      apply keeps_bind; [apply keeps_lift|intros; apply keeps_ret]. }
    intros [st|].
    + apply keeps_bind; [apply keeps_lift|intros file].
      apply keeps_bind; [apply keeps_get|intros w].
      apply keeps_bind; [apply keeps_lift|intros found].
      apply keeps_bind.
      { destruct (truthyString _); [apply keeps_ret|].
        apply keeps_bind; [apply keeps_logEntry|intros; apply keeps_ret]. }
      intros mime. destruct (_ && _); [|apply keeps_complete].
      apply keeps_tryCatch; [|intros; apply keeps_complete].
      apply keeps_bind; [apply keeps_lift|intros; apply keeps_complete].
    + repeat (apply keeps_bind; [apply keeps_onRes|intros]). apply keeps_onRes.
  - intros ex. apply keeps_bind; [apply keeps_logEntry|intros].
    repeat (apply keeps_bind; [apply keeps_onRes|intros]). apply keeps_onRes.
Qed.

Lemma keeps_defaultHandler_rest (H : Host) (req : Request) (dir : option string)
  (addSocket : bool) (w : World) :
  P (mkWorld (this w) (console w) (res w) (trace w ++ [DefaultHandlerCalled])) ->
  P (snd (defaultHandler H req dir addSocket w)).
Proof.
  intros Hw.
  destruct (candidate H (this w) req dir) as [[d u]|] eqn:Hc.
  - rewrite (defaultHandler_resolve H req dir d u addSocket w Hc).
    now apply keeps_resolve.
  - unfold defaultHandler, candidate in *.
    unfold bind at 1. unfold record, modify. cbn [fst snd].
    unfold bind at 1. unfold lift.
    destruct (url_pathname H (url req)) as [u0|]; [|exact Hw].
    unfold bind at 1. unfold get. cbn [this].
    destruct (subfolder (this w)) as [sub|]; [|discriminate].
    destruct (truthyString (Some sub)); [|discriminate].
    destruct (if truthyString dir then dir else directory (this w)); [discriminate|].
    exact Hw.
Qed.

End ResponseBlind.

(** [defaultHandler] records its entry once and leaves the object alone; the
    console only grows. *)
Lemma defaultHandler_frame (H : Host) (req : Request) (dir : option string)
  (addSocket : bool) (w : World) :
  this (snd (defaultHandler H req dir addSocket w)) = this w
  /\ trace (snd (defaultHandler H req dir addSocket w))
     = (trace w ++ [DefaultHandlerCalled])%list
  /\ exists logs, console (snd (defaultHandler H req dir addSocket w))
                  = (console w ++ logs)%list.
Proof.
  apply (keeps_defaultHandler_rest
           (fun w' => this w' = this w
                      /\ trace w' = (trace w ++ [DefaultHandlerCalled])%list
                      /\ exists logs, console w' = (console w ++ logs)%list)).
  - intros w' r (Ht & Htr & Hc). auto.
  - intros w' l (Ht & Htr & logs & Hc). simpl. repeat split; auto.
    exists (logs ++ [l])%list. now rewrite Hc, app_assoc.
  - simpl. repeat split. exists []. now rewrite app_nil_r.
Qed.

Section Settles.
Context {S : Type}.

Lemma settles_ret {A} (a : A) : settles (@ret S A a).
Proof. intros s. discriminate. Qed.

Lemma settles_throw {A} (e : Error) : settles (@throw S A e).
Proof. intros s. discriminate. Qed.

Lemma settles_lift {A} (c : Completion A) : c <> Hang -> settles (@lift S A c).
Proof. intros Hc s. exact Hc. Qed.

Lemma settles_get : settles (@get S).
Proof. intros s. discriminate. Qed.

Lemma settles_modify (f : S -> S) : settles (modify f).
Proof. intros s. discriminate. Qed.

Lemma settles_bind {A B} (m : M S A) (k : A -> M S B) :
  settles m -> (forall a, settles (k a)) -> settles (bind m k).
Proof.
  intros Hm Hk s. unfold bind. specialize (Hm s).
  destruct (m s) as [[a|e|] s']; simpl in *; [apply Hk|discriminate|now destruct Hm].
Qed.

Lemma settles_tryCatch {A} (m : M S A) (h : Error -> M S A) :
  settles m -> (forall e, settles (h e)) -> settles (tryCatch m h).
Proof.
  intros Hm Hh s. unfold tryCatch. specialize (Hm s).
  destruct (m s) as [[a|e|] s']; simpl in *; [discriminate|apply Hh|now destruct Hm].
Qed.

End Settles.

Lemma settles_onRes (f : Response -> Completion Response) :
  (forall r, f r <> Hang) -> settles (onRes f).
Proof.
  intros Hf w. unfold onRes. specialize (Hf (res w)).
  destruct (f (res w)); simpl; congruence.
Qed.

Lemma settles_setHeader (n v : string) : settles (res_setHeader n v).
Proof.
  apply settles_onRes. intros r. unfold setHeader. destruct (headersSent r); discriminate.
Qed.

Lemma settles_writeHead (c : Z) : settles (res_writeHead c).
Proof.
  apply settles_onRes. intros r. unfold writeHead. destruct (headersSent r); discriminate.
Qed.

Lemma settles_end (data : string) : settles (res_end data).
Proof. apply settles_onRes. discriminate. Qed.

Lemma settles_complete (mime input : string) : settles (complete mime input).
Proof.
  unfold complete.
  apply settles_bind; [apply settles_setHeader|intros].
  apply settles_bind; [apply settles_writeHead|intros]. apply settles_end.
Qed.

(** [defaultHandler] never hangs. *)
Lemma defaultHandler_settles (H : Host) (req : Request) (dir : option string)
  (addSocket : bool) : settles (defaultHandler H req dir addSocket).
Proof.
  unfold defaultHandler.
  apply settles_bind; [apply settles_modify|intros _].
  apply settles_bind.
  { apply settles_lift. destruct (url_pathname H (url req)); discriminate. }
  intros u0. apply settles_bind; [apply settles_get|intros w].
  apply settles_bind.
  { destruct (subfolder (this w)) as [sub|]; [|apply settles_ret].
    destruct (truthyString (Some sub)); [|apply settles_ret].
    destruct (if truthyString dir then dir else directory (this w));
      [apply settles_ret|apply settles_throw]. }
  intros du. apply settles_tryCatch.
  - apply settles_bind.
    { apply settles_lift. unfold pathJoin. destruct (fst du); discriminate. }
    intros filePath. apply settles_bind.
    { apply settles_tryCatch; [|intros; apply settles_ret].
      apply settles_bind; [|intros; apply settles_ret].
      apply settles_lift. unfold stat. destruct (fs H filePath) as [[c|]|]; discriminate. }
    intros [st|].
    + apply settles_bind.
      { apply settles_lift. unfold readFile.
        destruct (fs H filePath) as [[c|]|]; discriminate. }
      intros file. apply settles_bind; [apply settles_get|intros w'].
      apply settles_bind.
      { apply settles_lift. destruct (mimeTypes (this w')); discriminate. }
      intros found. apply settles_bind.
      { destruct (truthyString _); [apply settles_ret|].
        apply settles_bind; [apply settles_modify|intros; apply settles_ret]. }
      intros mime. destruct (_ && _); [|apply settles_complete].
      apply settles_tryCatch; [|intros; apply settles_complete].
      apply settles_bind; [|intros; apply settles_complete].
      apply settles_lift. apply socketInjection_settles.
    + apply settles_bind; [apply settles_onRes; discriminate|intros].
      apply settles_bind; [apply settles_setHeader|intros]. apply settles_end.
  - intros ex. apply settles_bind; [apply settles_modify|intros].
    apply settles_bind; [apply settles_setHeader|intros].
    apply settles_bind; [apply settles_writeHead|intros]. apply settles_end.
Qed.

(** One turn of the loop. *)
Lemma runChain_step (req : Request) (mw : Middleware) (rest : list Middleware)
  (k : nat) (next : Next) (w : World) :
  runChain req (mw :: rest) k next w
  = match hr_outcome (mw req (res w) (reset generateNext)) with
    | Pending => (Hang, setRes (hr_res (mw req (res w) (reset generateNext))) w)
    | _ =>
        if negb (status (hr_next (mw req (res w) (reset generateNext))))
        then (Normal (hr_next (mw req (res w) (reset generateNext))),
              afterRun k (mw req (res w) (reset generateNext)) w)
        else runChain req rest (S k) (hr_next (mw req (res w) (reset generateNext)))
               (afterRun k (mw req (res w) (reset generateNext)) w)
    end.
Proof.
  cbn [runChain]. unfold bind at 1. unfold get. cbn [this res].
  change (reset next) with (reset generateNext).
  set (run := mw req (res w) (reset generateNext)).
  unfold bind, modify, logEntry, record, lift, ret, afterRun. simpl.
  destruct (hr_outcome run); simpl; try reflexivity;
    destruct (status (hr_next run)); reflexivity.
Qed.

Lemma allContinued_cons (k : nat) (e : bool) (evs : list Event) :
  allContinued evs -> allContinued (Ran k true e :: evs).
Proof. intros Hevs ev [<-|Hin]; [eauto|auto]. Qed.

(** The shape of the trace the loop leaves. *)
Lemma runChain_shape (req : Request) (matching : list Middleware) :
  forall (k : nat) (next : Next) (w : World),
    this (snd (runChain req matching k next w)) = this w
    /\ exists evs logs,
         trace (snd (runChain req matching k next w)) = (trace w ++ evs)%list
         /\ console (snd (runChain req matching k next w)) = (console w ++ logs)%list
         /\ match fst (runChain req matching k next w) with
            | Hang => allContinued evs
            | Throw _ => False
            | Normal nx =>
                (matching = [] /\ evs = [] /\ nx = next)
                \/ (matching <> [] /\ status nx = true /\ allContinued evs
                    /\ length evs = length matching)
                \/ (status nx = false
                    /\ exists pre i e,
                         evs = (pre ++ [Ran i false e])%list /\ allContinued pre
                         /\ length pre < length matching)
            end.
Proof.
  induction matching as [|mw rest IH]; intros k next w.
  - simpl. split; [reflexivity|]. exists [], []. rewrite !app_nil_r. auto 6.
  - rewrite runChain_step. set (run := mw req (res w) (reset generateNext)).
    assert (Hgo : forall l0,
              console (afterRun k run w) = (console w ++ l0)%list ->
              this (snd (if negb (status (hr_next run))
                         then (Normal (hr_next run), afterRun k run w)
                         else runChain req rest (S k) (hr_next run) (afterRun k run w)))
              = this w
              /\ exists evs logs,
                   trace (snd (if negb (status (hr_next run))
                               then (Normal (hr_next run), afterRun k run w)
                               else runChain req rest (S k) (hr_next run) (afterRun k run w)))
                   = (trace w ++ evs)%list
                   /\ console (snd (if negb (status (hr_next run))
                               then (Normal (hr_next run), afterRun k run w)
                               else runChain req rest (S k) (hr_next run) (afterRun k run w)))
                      = (console w ++ logs)%list
                   /\ match fst (if negb (status (hr_next run))
                               then (Normal (hr_next run), afterRun k run w)
                               else runChain req rest (S k) (hr_next run) (afterRun k run w))
                      with
                      | Hang => allContinued evs
                      | Throw _ => False
                      | Normal nx =>
                          (mw :: rest = [] /\ evs = [] /\ nx = next)
                          \/ (mw :: rest <> [] /\ status nx = true /\ allContinued evs
                              /\ length evs = length (mw :: rest))
                          \/ (status nx = false
                              /\ exists pre i e,
                                   evs = (pre ++ [Ran i false e])%list /\ allContinued pre
                                   /\ length pre < length (mw :: rest))
                      end).
    { intros l0 Hl0. destruct (status (hr_next run)) eqn:Hst; simpl.
      - destruct (IH (S k) (hr_next run) (afterRun k run w))
          as (Hthis & evs & logs & Htr & Hco & Hsh).
        split; [exact Hthis|].
        exists (Ran k true (finished (hr_res run)) :: evs), (l0 ++ logs)%list.
        split; [rewrite Htr; simpl; rewrite Hst, <- app_assoc; reflexivity|].
        split; [rewrite Hco, Hl0; now rewrite <- app_assoc|].
        destruct (fst (runChain req rest (S k) (hr_next run) (afterRun k run w)))
          as [nx|e|].
        + destruct Hsh as [(-> & -> & ->)|[(Hne & Hnx & Hall & Hlen)|(Hnx & pre & i & e & -> & Hall & Hlen)]].
          * right. left. split; [discriminate|]. split; [exact Hst|].
            split; [|reflexivity]. apply allContinued_cons. intros ev [].
          * right. left. split; [discriminate|]. split; [exact Hnx|].
            split; [|simpl; now rewrite Hlen]. now apply allContinued_cons.
          * right. right. split; [exact Hnx|].
            exists (Ran k true (finished (hr_res run)) :: pre), i, e.
            split; [reflexivity|]. split; [|simpl; lia]. now apply allContinued_cons.
        + exact Hsh.
        + now apply allContinued_cons.
      - split; [reflexivity|].
        exists [Ran k false (finished (hr_res run))], l0.
        split; [simpl; now rewrite Hst|]. split; [exact Hl0|].
        right. right. split; [exact Hst|].
        exists [], k, (finished (hr_res run)).
        split; [reflexivity|]. split; [|simpl; lia]. intros ev []. }
    unfold afterRun in Hgo at 1. simpl in Hgo.
    destruct (hr_outcome run) as [|e|] eqn:Hout.
    + apply (Hgo []). now rewrite app_nil_r.
    + apply (Hgo [LogError e]). reflexivity.
    + simpl. split; [reflexivity|]. exists [], []. rewrite !app_nil_r.
      split; [reflexivity|]. split; [reflexivity|]. intros ev [].
Qed.

Lemma listener_unfold (H : Host) (req : Request) (w : World) :
  listener H req w
  = match runChain req (matchingHandlers H req w) 0 generateNext
            (setThis (setMiddlewares
                        (fst (filterMatching (engine H) (url req) (middlewares (this w))))
                        (this w)) w) with
    | (Normal nx, w1) =>
        if (length (matchingHandlers H req w) =? 0)%nat || status nx
        then defaultHandler H req None true w1
        else (Normal tt, w1)
    | (Throw e, w1) => (Throw e, w1)
    | (Hang, w1) => (Hang, w1)
    end.
Proof.
  unfold listener, bind, get, modify, ret, matchingHandlers. cbn beta iota zeta.
  destruct (runChain req _ 0 generateNext _) as [[nx|e|] w1]; try reflexivity.
  destruct (_ || _); reflexivity.
Qed.

Lemma allContinued_not_default (evs : list Event) :
  allContinued evs -> ~ In DefaultHandlerCalled evs.
Proof. intros Hall Hin. destruct (Hall _ Hin) as (k & e & Heq). discriminate. Qed.

Lemma allContinued_not_stopped (evs : list Event) :
  allContinued evs -> ~ stopped evs.
Proof.
  intros Hall (k & e & Hin). destruct (Hall _ Hin) as (k' & e' & Heq). discriminate.
Qed.

(** A chain of handlers that all settle comes to an end. *)
Lemma runChain_settles (req : Request) (matching : list Middleware) :
  Forall (fun mw => forall r n, hr_outcome (mw req r n) <> Pending) matching ->
  forall k next, settles (runChain req matching k next).
Proof.
  induction 1 as [|mw rest Hmw Hrest IH]; intros k next w.
  - discriminate.
  - rewrite runChain_step. specialize (Hmw (res w) (reset generateNext)).
    destruct (hr_outcome (mw req (res w) (reset generateNext)));
      [| |now destruct Hmw];
      (destruct (negb _); [discriminate|apply IH]).
Qed.

(** So the listener hangs only in a handler that never settles. *)
Lemma listener_settles (H : Host) (req : Request) (w : World) :
  Forall (fun mw => forall r n, hr_outcome (mw req r n) <> Pending)
    (matchingHandlers H req w) ->
  fst (listener H req w) <> Hang.
Proof.
  intros Hall. rewrite listener_unfold.
  pose proof (runChain_settles req _ Hall 0 generateNext
                (setThis (setMiddlewares
                   (fst (filterMatching (engine H) (url req) (middlewares (this w))))
                   (this w)) w)) as Hr.
  destruct (runChain req _ 0 generateNext _) as [[nx|e|] w1]; simpl in *;
    [|discriminate|now destruct Hr].
  destruct (_ || _); [apply defaultHandler_settles|discriminate].
Qed.

(** C1 (amended).  For every request whose matched handlers all settle,
    exactly one of two things happens, and the continuation flag alone
    decides which: the chain stops at a matched handler that returned (or
    threw) without having called the continuation, and [defaultHandler] is
    not invoked; or every matched handler called the continuation (or none
    matched), and [defaultHandler] is invoked, once, as the last step.
    Whether a handler wrote a response plays no part. *)
Theorem dispatch_outcome (H : Host) (req : Request) (w : World) :
  fst (listener H req w) <> Hang ->
  exists evs,
    trace (snd (listener H req w)) = (trace w ++ evs)%list
    /\ ((exists pre i e, evs = (pre ++ [Ran i false e])%list /\ allContinued pre)
        \/ (exists pre, evs = (pre ++ [DefaultHandlerCalled])%list /\ allContinued pre
                        /\ length pre = length (matchingHandlers H req w)))
    /\ ((stopped evs /\ ~ In DefaultHandlerCalled evs)
        \/ (~ stopped evs /\ In DefaultHandlerCalled evs)).
Proof.
  rewrite listener_unfold.
  set (w0 := setThis _ w).
  destruct (runChain_shape req (matchingHandlers H req w) 0 generateNext w0)
    as (_ & evs & logs & Htr & _ & Hsh).
  destruct (runChain req (matchingHandlers H req w) 0 generateNext w0)
    as [[nx|e|] w1]; simpl in *; intros Hnh; [| destruct Hsh | now destruct Hnh].
  assert (Hfall : forall pre, trace w1 = (trace w ++ pre)%list -> allContinued pre ->
            length pre = length (matchingHandlers H req w) ->
            exists evs0,
              trace (snd (defaultHandler H req None true w1)) = (trace w ++ evs0)%list
              /\ ((exists pre i e, evs0 = (pre ++ [Ran i false e])%list /\ allContinued pre)
                  \/ (exists pre, evs0 = (pre ++ [DefaultHandlerCalled])%list
                                  /\ allContinued pre
                                  /\ length pre = length (matchingHandlers H req w)))
              /\ ((stopped evs0 /\ ~ In DefaultHandlerCalled evs0)
                  \/ (~ stopped evs0 /\ In DefaultHandlerCalled evs0))).
  { intros pre Hpre Hall Hlen.
    destruct (defaultHandler_frame H req None true w1) as (_ & Hd & _).
    exists (pre ++ [DefaultHandlerCalled])%list.
    split; [rewrite Hd, Hpre; now rewrite <- app_assoc|].
    split; [right; eauto|]. right. split.
    - intros (k & e & Hin). apply in_app_or in Hin as [Hin|[Heq|[]]]; [|discriminate].
      apply (allContinued_not_stopped pre Hall). now exists k, e.
    - apply in_or_app. right. now left. }
  destruct Hsh as [(Hm & -> & ->)|[(Hne & Hnx & Hall & Hlen)|(Hnx & pre & i & e & -> & Hall & Hlen)]].
  - rewrite Hm. simpl. rewrite Hm in Hfall. apply (Hfall []); auto. intros ev [].
  - rewrite Hnx, orb_true_r. now apply (Hfall evs).
  - rewrite Hnx, orb_false_r.
    destruct (matchingHandlers H req w) as [|m ms]; [simpl in Hlen; lia|]. simpl.
    exists (pre ++ [Ran i false e])%list. split; [exact Htr|].
    split; [left; eauto|]. left. split.
    + exists i, e. apply in_or_app. right. now left.
    + intros Hin. apply in_app_or in Hin as [Hin|[Heq|[]]]; [|discriminate].
      now apply (allContinued_not_default pre Hall).
Qed.

Lemma dispatch_outcome_witness :
  fst (listener exampleHost (mkRequest "/nope" "GET")
         (started (Some (withMiddlewares [mkStackConfig silent None])))) <> Hang
  /\ exists evs,
       trace (snd (listener exampleHost (mkRequest "/nope" "GET")
                     (started (Some (withMiddlewares [mkStackConfig silent None])))))
       = (trace (started (Some (withMiddlewares [mkStackConfig silent None]))) ++ evs)%list
       /\ ((stopped evs /\ ~ In DefaultHandlerCalled evs)
           \/ (~ stopped evs /\ In DefaultHandlerCalled evs)).
Proof.
  assert (Hn : fst (listener exampleHost (mkRequest "/nope" "GET")
                      (started (Some (withMiddlewares [mkStackConfig silent None]))))
               <> Hang) by (vm_compute; discriminate).
  split; [exact Hn|].
  destruct (dispatch_outcome exampleHost (mkRequest "/nope" "GET")
              (started (Some (withMiddlewares [mkStackConfig silent None]))) Hn)
    as (evs & Htr & _ & Hx).
  exists evs. split; assumption.
Defined.

(** C1 as worded fails both ways: a handler that ends the response and calls
    the continuation gets [defaultHandler] invoked on top of it, and a
    handler that does neither leaves the request with neither. *)
Lemma dispatch_outcome_counterexample :
  ~ sentXorResolved exampleHost (mkRequest "/nope" "GET")
      (started (Some (withMiddlewares [mkStackConfig (respondAndContinue "x") None])))
  /\ ~ sentXorResolved exampleHost (mkRequest "/nope" "GET")
         (started (Some (withMiddlewares [mkStackConfig silent None]))).
Proof.
  assert (Hboth : trace (snd (listener exampleHost (mkRequest "/nope" "GET")
                    (started (Some (withMiddlewares
                       [mkStackConfig (respondAndContinue "x") None])))))
                  = [Ran 0 true true; DefaultHandlerCalled])
    by (vm_compute; reflexivity).
  assert (Hnone : trace (snd (listener exampleHost (mkRequest "/nope" "GET")
                    (started (Some (withMiddlewares [mkStackConfig silent None])))))
                  = [Ran 0 false false])
    by (vm_compute; reflexivity).
  split; intros Hc; unfold sentXorResolved in Hc; cbv zeta in Hc.
  - rewrite Hboth in Hc. destruct Hc as [[_ Hn]|[Hs _]].
    + apply Hn. right. now left.
    + apply Hs. exists 0, true. now left.
  - rewrite Hnone in Hc. destruct Hc as [[(k & c & [Hs|[]]) _]|[_ [Hr|[]]]].
    + discriminate Hs.
    + discriminate Hr.
Qed.

(** A prefix of handlers that all call the continuation is run through, and
    leaves events of its own indices only. *)
Lemma runChain_passes (req : Request) (pre : list Middleware) :
  forall (k : nat) (next : Next) (w : World) (r1 : Response),
    passes req pre (res w) = Some r1 ->
    exists logs evs next1,
      (forall rest,
          runChain req (pre ++ rest) k next w
          = runChain req rest (k + length pre) next1
              (mkWorld (this w) (console w ++ logs) r1 (trace w ++ evs)))
      /\ (forall ev, In ev evs -> exists j e, ev = Ran j true e /\ j < k + length pre).
Proof.
  induction pre as [|mw pre IH]; intros k next w r1 Hp.
  - simpl in Hp. injection Hp as <-. exists [], [], next. split.
    + intros rest. simpl. rewrite Nat.add_0_r, !app_nil_r. now destruct w.
    + intros ev [].
  - simpl in Hp. set (run := mw req (res w) (reset generateNext)) in *.
    destruct (hr_outcome run) as [|e|] eqn:Hout; [| |discriminate];
      (destruct (status (hr_next run)) eqn:Hst; [|discriminate]);
      (destruct (IH (S k) (hr_next run) (afterRun k run w) r1 Hp)
         as (logs & evs & next1 & Hrun & Hevs));
      [exists logs|exists (LogError e :: logs)];
      exists (Ran k true (finished (hr_res run)) :: evs), next1;
      (split;
       [intros rest; simpl app; rewrite runChain_step; fold run;
        rewrite Hout, Hst; simpl negb; cbv iota; rewrite Hrun;
        unfold afterRun; rewrite Hout, Hst; simpl;
        rewrite <- !app_assoc, Nat.add_succ_r; reflexivity
       |intros ev [<-|Hin];
        [exists k, (finished (hr_res run)); split; [reflexivity|simpl; lia]
        |destruct (Hevs ev Hin) as (j & b & -> & Hj);
         exists j, b; split; [reflexivity|simpl; lia]]]).
Qed.

(** C2 (amended).  When the handler at position i of the matched handlers
    rejects without having called the continuation, the failure is logged,
    no handler after it runs, [defaultHandler] is not invoked, the response
    is as that handler left it, and the listener itself returns normally.
    When it rejects after having called the continuation, the failure is
    logged all the same and the chain goes on as after a normal return: the
    next matched handler is run, and with no handler left [defaultHandler]
    is invoked. *)
Theorem handler_failure (H : Host) (req : Request) (w : World)
  (pre : list Middleware) (h : Middleware) (post : list Middleware)
  (r1 : Response) (e : Error) :
  matchingHandlers H req w = (pre ++ h :: post)%list ->
  passes req pre (res w) = Some r1 ->
  hr_outcome (h req r1 (reset generateNext)) = Rejected e ->
  (status (hr_next (h req r1 (reset generateNext))) = false ->
   fst (listener H req w) = Normal tt
   /\ res (snd (listener H req w)) = hr_res (h req r1 (reset generateNext))
   /\ (exists logs,
         console (snd (listener H req w)) = (console w ++ logs ++ [LogError e])%list)
   /\ (exists evs,
         trace (snd (listener H req w)) = (trace w ++ evs)%list
         /\ ranOnly (S (length pre)) evs))
  /\ (status (hr_next (h req r1 (reset generateNext))) = true ->
      In (LogError e) (console (snd (listener H req w)))
      /\ (exists fin, In (Ran (length pre) true fin) (trace (snd (listener H req w))))
      /\ (post = [] -> In DefaultHandlerCalled (trace (snd (listener H req w))))
      /\ (forall m post',
            post = m :: post' ->
            hr_outcome (m req (hr_res (h req r1 (reset generateNext)))
                          (reset generateNext)) <> Pending ->
            exists c fin,
              In (Ran (S (length pre)) c fin) (trace (snd (listener H req w))))).
Proof.
  intros Hmatch Hp Hout. rewrite listener_unfold, Hmatch.
  set (w0 := setThis _ w).
  destruct (runChain_passes req pre 0 generateNext w0 r1 Hp)
    as (logs & evs & next1 & Hrun & Hevs).
  rewrite (Hrun (h :: post)), runChain_step. cbn [res Nat.add].
  set (run := h req r1 (reset generateNext)) in *. rewrite Hout.
  set (w1 := mkWorld (this w0) (console w0 ++ logs) r1 (trace w0 ++ evs)).
  assert (Hlen : (length (pre ++ h :: post) =? 0)%nat = false).
  { rewrite length_app. simpl. rewrite Nat.add_succ_r. reflexivity. }
  rewrite Hlen. split; intros Hst; rewrite Hst; simpl negb; cbv iota.
  - rewrite Hst. simpl orb. cbv iota. unfold afterRun. rewrite Hout, Hst.
    cbn [fst snd res console trace]. unfold w1, w0. cbn [console trace setThis].
    split; [reflexivity|]. split; [reflexivity|]. split.
    + exists logs. now rewrite <- app_assoc.
    + exists (evs ++ [Ran (length pre) false (finished (hr_res run))])%list.
      split; [now rewrite <- app_assoc|].
      intros ev Hin. apply in_app_or in Hin as [Hin|[<-|[]]].
      * destruct (Hevs ev Hin) as (j & b & -> & Hj).
        exists j, true, b. split; [reflexivity|simpl in Hj; lia].
      * exists (length pre), false, (finished (hr_res run)). split; [reflexivity|lia].
  - set (wA := afterRun (length pre) run w1).
    assert (HinLog : In (LogError e) (console wA)).
    { unfold wA, afterRun. rewrite Hout. simpl. apply in_or_app. right. now left. }
    assert (HinRan : In (Ran (length pre) true (finished (hr_res run))) (trace wA)).
    { unfold wA, afterRun. rewrite Hst. simpl. apply in_or_app. right. now left. }
    destruct (runChain_shape req post (S (length pre)) (hr_next run) wA)
      as (_ & evs2 & logs2 & Htr2 & Hco2 & _).
    (* the next handler, if there is one and it settles, leaves its event *)
    assert (Hnext : forall m post',
              post = m :: post' ->
              hr_outcome (m req (hr_res run) (reset generateNext)) <> Pending ->
              exists c fin t,
                trace (snd (runChain req post (S (length pre)) (hr_next run) wA))
                = (trace wA ++ Ran (S (length pre)) c fin :: t)%list).
    { intros m post' -> Hnp. rewrite runChain_step.
      change (res wA) with (hr_res run).
      set (run2 := m req (hr_res run) (reset generateNext)) in *.
      assert (Hgo : exists c fin t,
                trace (snd (if negb (status (hr_next run2))
                            then (Normal (hr_next run2),
                                  afterRun (S (length pre)) run2 wA)
                            else runChain req post' (S (S (length pre))) (hr_next run2)
                                   (afterRun (S (length pre)) run2 wA)))
                = (trace wA ++ Ran (S (length pre)) c fin :: t)%list).
      { destruct (negb (status (hr_next run2))).
        - exists (status (hr_next run2)), (finished (hr_res run2)), []. reflexivity.
        - destruct (runChain_shape req post' (S (S (length pre))) (hr_next run2)
                      (afterRun (S (length pre)) run2 wA))
            as (_ & t & _ & Ht & _).
          exists (status (hr_next run2)), (finished (hr_res run2)), t.
          rewrite Ht. simpl. now rewrite <- app_assoc. }
      destruct (hr_outcome run2); [exact Hgo|exact Hgo|now destruct Hnp]. }
    (* whatever follows only adds to the console and to the trace *)
    assert (Hfinal : forall c2 w2,
              runChain req post (S (length pre)) (hr_next run) wA = (c2, w2) ->
              exists l t,
                console (snd (match c2 with
                              | Normal nx =>
                                  if false || status nx
                                  then defaultHandler H req None true w2
                                  else (Normal tt, w2)
                              | Throw e0 => (Throw e0, w2)
                              | Hang => (Hang, w2)
                              end)) = (console w2 ++ l)%list
                /\ trace (snd (match c2 with
                               | Normal nx =>
                                   if false || status nx
                                   then defaultHandler H req None true w2
                                   else (Normal tt, w2)
                               | Throw e0 => (Throw e0, w2)
                               | Hang => (Hang, w2)
                               end)) = (trace w2 ++ t)%list
                /\ (post = [] -> In DefaultHandlerCalled t)).
    { intros c2 w2 Hr.
      assert (Hstay : exists l t, console w2 = (console w2 ++ l)%list
                                  /\ trace w2 = (trace w2 ++ t)%list
                                  /\ t = [])
        by (exists [], []; now rewrite !app_nil_r).
      destruct c2 as [nx|e0|]; simpl.
      - destruct (status nx) eqn:Hnx.
        + destruct (defaultHandler_frame H req None true w2) as (_ & Hd & l & Hc).
          exists l, [DefaultHandlerCalled]. split; [exact Hc|]. split; [exact Hd|].
          intros _. now left.
        + destruct Hstay as (l & t & Hl & Ht & ->). exists l, []. split; [exact Hl|].
          split; [exact Ht|]. intros ->. simpl in Hr. injection Hr as Heq _.
          rewrite <- Heq in Hnx. congruence.
      - destruct Hstay as (l & t & Hl & Ht & ->). exists l, []. split; [exact Hl|].
        split; [exact Ht|]. intros ->. discriminate Hr.
      - destruct Hstay as (l & t & Hl & Ht & ->). exists l, []. split; [exact Hl|].
        split; [exact Ht|]. intros ->. discriminate Hr. }
    destruct (runChain req post (S (length pre)) (hr_next run) wA)
      as [c2 w2] eqn:Hr.
    simpl in Htr2, Hco2, Hnext.
    destruct (Hfinal c2 w2 eq_refl) as (l & t & Hl & Ht & Hdef).
    cbv beta iota. rewrite Hl, Ht, Hco2, Htr2.
    split; [apply in_or_app; left; apply in_or_app; now left|].
    split; [eexists; apply in_or_app; left; apply in_or_app; left; exact HinRan|].
    split; [intros Hnil; apply in_or_app; right; now apply Hdef|].
    intros m post' Hpost Hnp.
    destruct (Hnext m post' Hpost Hnp) as (c & fin & t2 & Hn).
    exists c, fin. rewrite <- Htr2, Hn.
    apply in_or_app. left. apply in_or_app. right. now left.
Qed.

Lemma handler_failure_witness :
  fst (listener exampleHost (mkRequest "/nope" "GET")
         (started (Some (withMiddlewares
            [mkStackConfig passOn None;
             mkStackConfig (throwAtOnce boom) (Some "/nope");
             mkStackConfig (respond "late") None]))))
  = Normal tt
  /\ res (snd (listener exampleHost (mkRequest "/nope" "GET")
                 (started (Some (withMiddlewares
                    [mkStackConfig passOn None;
                     mkStackConfig (throwAtOnce boom) (Some "/nope");
                     mkStackConfig (respond "late") None])))))
     = freshResponse.
Proof.
  destruct (proj1 (handler_failure exampleHost (mkRequest "/nope" "GET")
                     (started (Some (withMiddlewares
                        [mkStackConfig passOn None;
                         mkStackConfig (throwAtOnce boom) (Some "/nope");
                         mkStackConfig (respond "late") None])))
                     [passOn] (throwAtOnce boom) [respond "late"] freshResponse boom
                     eq_refl eq_refl eq_refl) eq_refl) as (H1 & H2 & _).
  split; [exact H1|exact H2].
Defined.

(** C2 as worded fails for a handler that calls the continuation and then
    throws: the next matched handler runs, and so does [defaultHandler]. *)
Lemma handler_failure_counterexample :
  ~ failureStopsChain exampleHost (mkRequest "/nope" "GET")
      (started (Some (withMiddlewares
         [mkStackConfig (continueThenThrow boom) None;
          mkStackConfig passOn (Some "/nope")]))).
Proof.
  intros Hc.
  specialize (Hc [] (continueThenThrow boom) [passOn] freshResponse boom
                eq_refl eq_refl eq_refl).
  assert (Hin : In DefaultHandlerCalled
                  (trace (snd (listener exampleHost (mkRequest "/nope" "GET")
                     (started (Some (withMiddlewares
                        [mkStackConfig (continueThenThrow boom) None;
                         mkStackConfig passOn (Some "/nope")])))))))
    by (vm_compute; auto).
  destruct (Hc _ Hin) as (k & c & f & Heq & _). discriminate Heq.
Qed.

(** ** Live reload *)

Lemma connect_first (w : World) (id : nat) :
  io (this w) <> None -> connectedBefore (this w) = false ->
  broadcasts (snd (connect id w)) = S (broadcasts w)
  /\ connectedBefore (this (snd (connect id w))) = true
  /\ exists sock,
       io (this (snd (connect id w))) = Some sock
       /\ Forall (fun c => In "refresh" (inbox c)) (clients sock).
Proof.
  intros Hio Hcb.
  unfold connect, connectionCallback, refreshBrowser, onThis, bind, get, modify,
    logEntry, record, throw, broadcasts.
  destruct (io (this w)) as [sock|] eqn:Hs; [|now destruct Hio]. simpl.
  rewrite Hcb. simpl. split; [|split; [reflexivity|]].
  - rewrite filter_app, length_app. simpl. lia.
  - eexists. split; [reflexivity|]. simpl.
    apply Forall_forall. intros c Hin. apply in_map_iff in Hin as (c0 & <- & _).
    simpl. apply in_or_app. right. now left.
Qed.

Lemma connect_later (w : World) (id : nat) :
  connectedBefore (this w) = true ->
  broadcasts (snd (connect id w)) = broadcasts w
  /\ connectedBefore (this (snd (connect id w))) = true.
Proof.
  intros Hcb.
  unfold connect, connectionCallback, refreshBrowser, onThis, bind, get, modify,
    logEntry, record, throw, broadcasts.
  destruct (io (this w)) as [sock|] eqn:Hs; simpl; [|auto].
  rewrite Hcb. simpl. auto.
Qed.

Lemma listener_keeps_flag (H : Host) (req : Request) (w : World) :
  connectedBefore (this (snd (listener H req w))) = connectedBefore (this w).
Proof.
  rewrite listener_unfold. set (w0 := setThis _ w).
  destruct (runChain_shape req (matchingHandlers H req w) 0 generateNext w0)
    as (Hthis & _).
  destruct (runChain req (matchingHandlers H req w) 0 generateNext w0)
    as [[nx|e|] w1]; simpl in Hthis.
  - destruct (_ || _); simpl.
    + destruct (defaultHandler_frame H req None true w1) as (-> & _). now rewrite Hthis.
    + now rewrite Hthis.
  - simpl. now rewrite Hthis.
  - simpl. now rewrite Hthis.
Qed.

(** No operation puts the flag back. *)
Lemma step_keeps_flag (H : Host) (op : Op) (w : World) :
  connectedBefore (this w) = true ->
  connectedBefore (this (snd (step H op w))) = true.
Proof.
  intros Hcb. destruct op as [fetched| |mw route| |req|id|id]; simpl.
  - unfold startAsync, createServer, onThis, bind, get, modify, logEntry, lift.
    destruct fetched as [base|e|]; simpl; auto.
    destruct (mergedMimeTypes (this w) base); simpl; auto.
  - unfold stop, onThis, modify. simpl. destruct (server (this w)); simpl; auto.
  - unfold onThis.
    pose proof (addMiddleware_keeps (engine H) mw route
                  (fun s => connectedBefore s = true) (fun s ms Hs => Hs) (this w) Hcb)
      as Hk.
    destruct (addMiddleware (engine H) mw route (this w)) as [c s]. exact Hk.
  - unfold refreshBrowser, bind, get, modify, logEntry, record, throw. simpl.
    destruct (io (this w)); simpl; auto.
  - unfold serve, bind, modify. simpl.
    now rewrite listener_keeps_flag.
  - now apply connect_later.
  - unfold disconnect, onThis, bind, get, modify, logEntry, ret.
    destruct (io (this w)) as [sock|]; simpl; auto.
    destruct (existsb _ (clients sock)); simpl; auto.
Qed.

Lemma runOps_keeps_flag (H : Host) (ops : list Op) (w : World) :
  connectedBefore (this w) = true ->
  connectedBefore (this (runOps H ops w)) = true.
Proof.
  revert w. induction ops as [|op ops IH]; intros w Hcb; simpl; [exact Hcb|].
  apply IH. now apply step_keeps_flag.
Qed.

Lemma connections_later (H : Host) (ids : list nat) (w : World) :
  connectedBefore (this w) = true ->
  broadcasts (runOps H (map OpConnect ids) w) = broadcasts w.
Proof.
  revert w. induction ids as [|id ids IH]; intros w Hcb; simpl; [reflexivity|].
  destruct (connect_later w id Hcb) as [Hb Hf]. now rewrite IH, Hb.
Qed.

(** C7.  On a channel no client has connected to yet, the first connection
    triggers exactly one broadcast, which reaches every connected client, and
    sets [connectedBefore]; whatever
    connections follow, the count of broadcasts stays there; a connection
    made once the flag is set triggers none; and no operation on the server
    clears the flag. *)
Theorem first_connection_broadcasts (H : Host) :
  (forall w id ids,
      io (this w) <> None -> connectedBefore (this w) = false ->
      broadcasts (snd (connect id w)) = S (broadcasts w)
      /\ connectedBefore (this (snd (connect id w))) = true
      /\ (exists sock,
            io (this (snd (connect id w))) = Some sock
            /\ Forall (fun c => In "refresh" (inbox c)) (clients sock))
      /\ broadcasts (runOps H (map OpConnect (id :: ids)) w) = S (broadcasts w)
      /\ connectedBefore (this (runOps H (map OpConnect (id :: ids)) w)) = true)
  /\ (forall w id,
        connectedBefore (this w) = true ->
        broadcasts (snd (connect id w)) = broadcasts w
        /\ connectedBefore (this (snd (connect id w))) = true)
  /\ (forall w op,
        connectedBefore (this w) = true ->
        connectedBefore (this (snd (step H op w))) = true)
  /\ (forall w ops,
        connectedBefore (this w) = true ->
        connectedBefore (this (runOps H ops w)) = true).
Proof.
  split; [|split; [|split]].
  - intros w id ids Hio Hcb. destruct (connect_first w id Hio Hcb) as (Hb & Hf & Hin).
    split; [exact Hb|]. split; [exact Hf|]. split; [exact Hin|]. simpl. split.
    + now rewrite (connections_later H ids _ Hf).
    + now apply runOps_keeps_flag.
  - intros w id. apply connect_later.
  - intros w op. apply step_keeps_flag.
  - intros w ops. apply runOps_keeps_flag.
Qed.

Lemma first_connection_broadcasts_witness :
  broadcasts (runOps exampleHost (map OpConnect [1; 2; 3]) (started (Some emptyConfig))) = 1
  /\ connectedBefore
       (this (runOps exampleHost (map OpConnect [1; 2; 3]) (started (Some emptyConfig))))
     = true.
Proof.
  destruct (proj1 (first_connection_broadcasts exampleHost)
              (started (Some emptyConfig)) 1 [2; 3])
    as (_ & _ & _ & Hb & Hf).
  - discriminate.
  - reflexivity.
  - split; [exact Hb|exact Hf].
Defined.

(** * Further properties *)

(** ** Selection of handlers *)

Lemma filterMatching_app (E : Engine) (u : string) (ms1 ms2 : list Stack) :
  filterMatching E u (ms1 ++ ms2)
  = ((fst (filterMatching E u ms1) ++ fst (filterMatching E u ms2))%list,
     (snd (filterMatching E u ms1) ++ snd (filterMatching E u ms2))%list).
Proof.
  induction ms1 as [|x ms1 IH]; simpl.
  - now destruct (filterMatching E u ms2).
  - rewrite IH. destruct (test E (pattern x) u) as [b p'].
    destruct (filterMatching E u ms1) as [st1 m1]. simpl.
    destruct b; reflexivity.
Qed.

Lemma filterMatching_filter (E : Engine) (u : string) (ms : list Stack) :
  filterMatching E u ms
  = (map (tested E u) ms, map middleware (filter (selects E u) ms)).
Proof.
  induction ms as [|x ms IH]; simpl; [reflexivity|].
  rewrite IH. unfold tested, selects.
  destruct (test E (pattern x) u) as [b p']. simpl. destruct b; reflexivity.
Qed.

(** X1.  The handlers selected for a URL are those of the registered entries
    whose pattern accepts it, in registration order; testing changes no
    handler and drops no entry; an entry registered under [*] is selected
    for every URL; and a handler registered after the others is selected
    after them. *)
Theorem matching_in_registration_order (E : Engine) (u : string) (ms : list Stack) :
  snd (filterMatching E u ms) = map middleware (filter (selects E u) ms)
  /\ map middleware (fst (filterMatching E u ms)) = map middleware ms
  /\ (forall x, In x ms -> pattern x = MatchAll ->
        In (middleware x) (snd (filterMatching E u ms)))
  /\ (forall mw route s s',
        addMiddleware E mw route s = (Normal tt, s') ->
        exists p,
          middlewares s' = (middlewares s ++ [mkStack p mw])%list
          /\ snd (filterMatching E u (middlewares s'))
             = (snd (filterMatching E u (middlewares s))
                  ++ (if fst (test E p u) then [mw] else []))%list).
Proof.
  rewrite filterMatching_filter. simpl. split; [reflexivity|]. split; [|split].
  - rewrite map_map. reflexivity.
  - intros x Hin Hp. apply in_map. apply filter_In. split; [exact Hin|].
    unfold selects. now rewrite Hp.
  - intros mw route s s'. unfold addMiddleware, bind, lift, ret, modify.
    destruct (String.eqb _ "*").
    + intros Heq. injection Heq as <-. exists MatchAll. split; [reflexivity|].
      simpl. rewrite filterMatching_app. reflexivity.
    + destruct (stringToRegex E _) as [re|e|]; try discriminate.
      intros Heq. injection Heq as <-. exists (Compiled re). split; [reflexivity|].
      simpl middlewares. rewrite filterMatching_app. cbn [snd filterMatching pattern].
      destruct (test E (Compiled re) u) as [b p']. reflexivity.
Qed.

(** ** The server object across a request *)






(** ** Static files: what is answered *)

Lemma resolve_file_logs (H : Host) (d u file : string) (addSocket : bool)
  (l : list MimeType) (w : World) :
  fs H (path_join H d u) = Some (RegularFile file) ->
  mimeTypes (this w) = Some l -> unsent (res w) ->
  resolve H (Some d) u addSocket w
  = (Normal tt,
     mkWorld (this w) (console w ++ mimeWarning H l u)
       (answered (res w) 200 (mimeOf H l u) (payload H (mimeOf H l u) file addSocket))
       (trace w)).
Proof.
  intros Hfs Hm Hun. unfold resolve, payload, mimeOf, mimeWarning. cbv zeta.
  set (found := option_map type (find _ l)).
  set (mime := if truthyString found then orString found "text/html" else "text/html").
  assert (Hserve : forall w0 : World, res w0 = res w ->
            (if String.eqb mime "text/html" && addSocket
             then tryCatch (modified <- lift (socketInjection H file) ;;
                            complete mime modified)
                           (fun _ => complete mime file)
             else complete mime file) w0
            = (Normal tt,
               setRes (answered (res w) 200 mime
                         (if String.eqb mime "text/html" && addSocket
                          then match socketInjection H file with
                               | Normal modified => modified
                               | _ => file
                               end
                          else file)) w0)).
  { intros w0 Hw0. assert (Hun0 : unsent (res w0)) by now rewrite Hw0.
    destruct (String.eqb mime "text/html" && addSocket).
    - pose proof (socketInjection_settles H file) as Hs.
      destruct (socketInjection H file) as [modified|e|] eqn:Hinj; [| |now destruct Hs].
      + erewrite tryCatch_normal; [reflexivity|].
        erewrite bind_normal; [|reflexivity].
        rewrite (complete_unsent _ _ _ Hun0), Hw0. reflexivity.
      + erewrite tryCatch_throw; [|reflexivity].
        rewrite (complete_unsent _ _ _ Hun0), Hw0. reflexivity.
    - rewrite (complete_unsent _ _ _ Hun0), Hw0. reflexivity. }
  apply tryCatch_normal.
  erewrite bind_normal; [|reflexivity].
  erewrite bind_normal;
    [|unfold tryCatch, bind, lift, stat; rewrite Hfs; reflexivity].
  cbv beta iota.
  erewrite bind_normal; [|unfold lift, readFile; rewrite Hfs; reflexivity].
  erewrite bind_normal; [|reflexivity].
  erewrite bind_normal; [|unfold lift; rewrite Hm; reflexivity].
  fold found. subst mime.
  destruct (truthyString found) eqn:Ht.
  - erewrite bind_normal; [|reflexivity].
    rewrite Hserve by reflexivity. rewrite app_nil_r. destruct w; reflexivity.
  - erewrite bind_normal; [|reflexivity].
    rewrite Hserve by reflexivity. reflexivity.
Qed.

Lemma resolve_no_directory (H : Host) (u : string) (addSocket : bool) (w : World) :
  unsent (res w) ->
  resolve H None u addSocket w
  = (Normal tt,
     mkWorld (this w)
       (console w ++ [LogError (TypeError
          "The path argument must be of type string. Received undefined")])
       (answered (res w) 500 "text/html"
          (page500 u (TypeError
             "The path argument must be of type string. Received undefined")))
       (trace w)).
Proof.
  intros [Hhead Hfin]. unfold resolve, answered. run_monad.
  rewrite Hhead, Hfin. simpl. reflexivity.
Qed.

Lemma resolve_no_mimeTypes (H : Host) (d u file : string) (addSocket : bool) (w : World) :
  fs H (path_join H d u) = Some (RegularFile file) ->
  mimeTypes (this w) = None -> unsent (res w) ->
  resolve H (Some d) u addSocket w
  = (Normal tt,
     mkWorld (this w) (console w ++ [LogError (undefinedRead "find")])
       (answered (res w) 500 "text/html" (page500 u (undefinedRead "find")))
       (trace w)).
Proof.
  intros Hfs Hm [Hhead Hfin]. unfold resolve, answered. run_monad.
  rewrite Hfs. simpl. rewrite Hm. simpl. rewrite Hhead, Hfin. simpl. reflexivity.
Qed.

(** On a response nothing has been sent on, [defaultHandler] always ends up
    with one of its three answers. *)
Lemma defaultHandler_answers (H : Host) (req : Request) (dir d : option string)
  (u : string) (addSocket : bool) (w : World) :
  candidate H (this w) req dir = Some (d, u) -> unsent (res w) ->
  exists code contentType content logs,
    defaultHandler H req dir addSocket w
    = (Normal tt,
       mkWorld (this w) (console w ++ logs)
         (answered (res w) code contentType content)
         (trace w ++ [DefaultHandlerCalled]))
    /\ (code = 200 \/ code = 404 \/ code = 500)%Z.
Proof.
  intros Hc Hun. rewrite (defaultHandler_resolve H req dir d u addSocket w Hc).
  set (w1 := mkWorld (this w) (console w) (res w) (trace w ++ [DefaultHandlerCalled])).
  assert (Hun1 : unsent (res w1)) by exact Hun.
  destruct d as [d|].
  - destruct (fs H (path_join H d u)) as [[file|]|] eqn:Hfs.
    + destruct (mimeTypes (this w)) as [l|] eqn:Hm.
      * rewrite (resolve_file_logs H d u file addSocket l w1 Hfs Hm Hun1).
        do 4 eexists. split; [reflexivity|auto].
      * rewrite (resolve_no_mimeTypes H d u file addSocket w1 Hfs Hm Hun1).
        do 4 eexists. split; [reflexivity|auto].
    + rewrite (resolve_directory H d u addSocket w1 Hfs Hun1).
      do 4 eexists. split; [reflexivity|auto].
    + rewrite (resolve_not_found H d u addSocket w1 Hfs Hun1).
      exists 404%Z, "text/html", page404, []. split; [|auto].
      simpl. now rewrite app_nil_r.
  - rewrite (resolve_no_directory H u addSocket w1 Hun1).
    do 4 eexists. split; [reflexivity|auto].
Qed.

(** X3.  A request whose candidate path is a regular file, answered on a
    response nothing has been sent on, gets status 200, the type of the
    first table entry listing the extension and the file as its content: the
    file as read unless the type is [text/html] and injection is asked for.
    When no entry lists the extension the type is [text/html] and a warning
    is logged. *)
Theorem static_file_served (H : Host) (req : Request) (dir : option string)
  (addSocket : bool) (w : World) (d u file : string) (l : list MimeType) :
  candidate H (this w) req dir = Some (Some d, u) ->
  fs H (path_join H d u) = Some (RegularFile file) ->
  mimeTypes (this w) = Some l ->
  unsent (res w) ->
  defaultHandler H req dir addSocket w
  = (Normal tt,
     mkWorld (this w) (console w ++ mimeWarning H l u)
       (answered (res w) 200 (mimeOf H l u) (payload H (mimeOf H l u) file addSocket))
       (trace w ++ [DefaultHandlerCalled]))
  /\ (mimeOf H l u <> "text/html" \/ addSocket = false ->
      payload H (mimeOf H l u) file addSocket = file)
  /\ (resolves (replaceFirst "." EmptyString (path_extname H u)) l = false ->
      mimeOf H l u = "text/html" /\ mimeWarning H l u <> [])
  /\ (forall m,
        find (fun x => includes (replaceFirst "." EmptyString (path_extname H u))
                         (extensions x)) l = Some m ->
        type m <> EmptyString ->
        mimeOf H l u = type m /\ mimeWarning H l u = []).
Proof.
  intros Hc Hfs Hm Hun. rewrite (defaultHandler_resolve H req dir (Some d) u addSocket w Hc).
  split; [|split; [|split]].
  - now rewrite (resolve_file_logs H d u file addSocket l
                   (mkWorld (this w) (console w) (res w)
                      (trace w ++ [DefaultHandlerCalled])) Hfs Hm Hun).
  - unfold payload. intros [Hne| ->].
    + apply String.eqb_neq in Hne. now rewrite Hne.
    + now rewrite andb_false_r.
  - unfold resolves, mimeOf, mimeWarning. cbv zeta.
    destruct (find _ l); [discriminate|]. intros _. simpl. split; [reflexivity|discriminate].
  - intros m Hf Ht. unfold mimeOf, mimeWarning. cbv zeta. rewrite Hf. simpl.
    apply String.eqb_neq in Ht. rewrite Ht. simpl. auto.
Qed.

Lemma static_file_served_witness :
  res (snd (defaultHandler exampleHost (mkRequest "/index.html?x=1" "GET") None false
              (started (Some emptyConfig))))
  = answered freshResponse 200 "text/html" "<p>hi</p>".
Proof.
  rewrite (proj1 (static_file_served exampleHost (mkRequest "/index.html?x=1" "GET")
                    None false (started (Some emptyConfig)) "site" "/index.html"
                    "<p>hi</p>" exampleMimes
                    eq_refl eq_refl eq_refl (conj eq_refl eq_refl))).
  reflexivity.
Defined.

(** X4.  Whenever the request URL parses (and the subfolder, if any, can be
    taken out of a directory), [defaultHandler] on a response nothing has
    been sent on returns normally with the response finished, its status 200,
    404 or 500 and a content type set: no failure inside it reaches the
    transport.  When the URL does not parse, it throws before touching the
    response. *)
Theorem defaultHandler_always_answers (H : Host) (req : Request)
  (dir : option string) (addSocket : bool) (w : World) :
  unsent (res w) ->
  (forall d u,
      candidate H (this w) req dir = Some (d, u) ->
      fst (defaultHandler H req dir addSocket w) = Normal tt
      /\ finished (res (snd (defaultHandler H req dir addSocket w))) = true
      /\ exists code hs,
           sentHead (res (snd (defaultHandler H req dir addSocket w))) = Some (code, hs)
           /\ (code = 200 \/ code = 404 \/ code = 500)%Z
           /\ getHeader "content-type" hs <> None)
  /\ (candidate H (this w) req dir = None ->
      exists e,
        defaultHandler H req dir addSocket w
        = (Throw e,
           mkWorld (this w) (console w) (res w) (trace w ++ [DefaultHandlerCalled]))).
Proof.
  intros Hun. split.
  - intros d u Hc.
    destruct (defaultHandler_answers H req dir d u addSocket w Hc Hun)
      as (code & ct & content & logs & -> & Hcode).
    simpl. split; [reflexivity|]. split; [reflexivity|].
    eexists _, _. split; [reflexivity|]. split; [exact Hcode|].
    rewrite getHeader_putHeader. discriminate.
  - unfold defaultHandler, candidate.
    unfold bind at 1. unfold record, modify. cbn [fst snd].
    unfold bind at 1. unfold lift.
    destruct (url_pathname H (url req)) as [u0|]; [|intros _; eauto].
    unfold bind at 1. unfold get. cbn [this].
    destruct (subfolder (this w)) as [sub|]; [|discriminate].
    simpl truthyString.
    destruct (negb (String.eqb sub EmptyString)); [|discriminate].
    destruct (if truthyString dir then dir else directory (this w)); [discriminate|].
    intros _. unfold bind, throw. eauto.
Qed.

Lemma defaultHandler_always_answers_witness :
  fst (defaultHandler exampleHost (mkRequest "/docs" "GET") None true
         (started (Some emptyConfig))) = Normal tt
  /\ finished (res (snd (defaultHandler exampleHost (mkRequest "/docs" "GET") None true
                           (started (Some emptyConfig))))) = true.
Proof.
  destruct (proj1 (defaultHandler_always_answers exampleHost (mkRequest "/docs" "GET")
                     None true (started (Some emptyConfig)) (conj eq_refl eq_refl))
              (Some "site") "/docs" eq_refl) as (H1 & H2 & _).
  split; [exact H1|exact H2].
Defined.

(** ** Static files: a response already on the wire *)

Lemma bind_throw {S A B} (m : M S A) (k : A -> M S B) (s s' : S) (e : Error) :
  m s = (Throw e, s') -> bind m k s = (Throw e, s').
Proof. intros Hm. unfold bind. now rewrite Hm. Qed.

Lemma complete_sent (mime input : string) (w : World) :
  headersSent (res w) = true ->
  complete mime input w = (Throw headersSentError, w).
Proof.
  intros Hs. unfold complete, res_setHeader, onRes, setHeader, bind.
  now rewrite Hs.
Qed.

Lemma sameSent_refl (r : Response) : sameSent r r.
Proof. repeat split. Qed.

Lemma resolve_sent (H : Host) (d : option string) (u : string) (addSocket : bool)
  (w : World) :
  headersSent (res w) = true ->
  exists w',
    resolve H d u addSocket w = (Throw headersSentError, w')
    /\ sameSent (res w) (res w') /\ this w' = this w /\ trace w' = trace w.
Proof.
  intros Hs.
  assert (Hhandler : forall ex w0, headersSent (res w0) = true ->
            (logEntry (LogError ex) ;;
             res_setHeader "Content-Type" "text/html" ;;
             res_writeHead 500 ;;
             res_end (page500 u ex)) w0
            = (Throw headersSentError,
               mkWorld (this w0) (console w0 ++ [LogError ex]) (res w0) (trace w0))).
  { intros ex w0 Hs0. unfold logEntry, res_setHeader, onRes, setHeader, bind, modify.
    simpl. now rewrite Hs0. }
  assert (Hbody : forall (body : M World unit) ex w1,
            body w = (Throw ex, w1) ->
            sameSent (res w) (res w1) -> headersSent (res w1) = true ->
            this w1 = this w -> trace w1 = trace w ->
            exists w',
              tryCatch body
                (fun ex =>
                   logEntry (LogError ex) ;;
                   res_setHeader "Content-Type" "text/html" ;;
                   res_writeHead 500 ;;
                   res_end (page500 u ex)) w
              = (Throw headersSentError, w')
              /\ sameSent (res w) (res w') /\ this w' = this w /\ trace w' = trace w).
  { intros body ex w1 Hb Hsame Hs1 Hthis Htrace.
    rewrite (tryCatch_throw _ _ _ _ _ Hb), (Hhandler ex w1 Hs1).
    eexists. split; [reflexivity|]. simpl. auto. }
  assert (Hfinal : forall mime file (w0 : World), headersSent (res w0) = true ->
            (if String.eqb mime "text/html" && addSocket
             then tryCatch (modified <- lift (socketInjection H file) ;;
                            complete mime modified)
                           (fun _ => complete mime file)
             else complete mime file) w0
            = (Throw headersSentError, w0)).
  { intros mime file w0 Hs0. destruct (_ && _); [|now apply complete_sent].
    pose proof (socketInjection_settles H file) as Hset.
    destruct (socketInjection H file) as [modified|e|] eqn:Hinj; [| |now destruct Hset].
    - erewrite tryCatch_throw; [now apply complete_sent|].
      erewrite bind_normal; [|reflexivity]. now apply complete_sent.
    - erewrite tryCatch_throw; [now apply complete_sent|]. reflexivity. }
  unfold resolve.
  destruct d as [d|].
  - destruct (fs H (path_join H d u)) as [[file|]|] eqn:Hfs.
    + destruct (mimeTypes (this w)) as [l|] eqn:Hm.
      * set (found := option_map type
                        (find (fun x => includes (replaceFirst "." EmptyString
                                                    (path_extname H u)) (extensions x)) l)).
        eapply (Hbody _ headersSentError
                  (mkWorld (this w)
                     (console w ++ (if truthyString found then []
                                    else [Warn ("Couldn't determine mimetype for "
                                                ++ path_extname H u
                                                ++ ". Defaulting to html")]))
                     (res w) (trace w)));
          [|apply sameSent_refl|exact Hs|reflexivity|reflexivity].
        erewrite bind_normal; [|reflexivity].
        erewrite bind_normal;
          [|unfold tryCatch, bind, lift, stat; rewrite Hfs; reflexivity].
        cbv beta iota.
        erewrite bind_normal; [|unfold lift, readFile; rewrite Hfs; reflexivity].
        erewrite bind_normal; [|reflexivity].
        erewrite bind_normal; [|unfold lift; rewrite Hm; reflexivity].
        fold found. destruct (truthyString found).
        -- erewrite bind_normal; [|reflexivity].
           rewrite Hfinal by exact Hs. rewrite app_nil_r. now destruct w.
        -- erewrite bind_normal; [|reflexivity].
           rewrite Hfinal by exact Hs. reflexivity.
      * eapply (Hbody _ (undefinedRead "find") w);
          [|apply sameSent_refl|exact Hs|reflexivity|reflexivity].
        erewrite bind_normal; [|reflexivity].
        erewrite bind_normal;
          [|unfold tryCatch, bind, lift, stat; rewrite Hfs; reflexivity].
        cbv beta iota.
        erewrite bind_normal; [|unfold lift, readFile; rewrite Hfs; reflexivity].
        erewrite bind_normal; [|reflexivity].
        apply bind_throw. unfold lift. now rewrite Hm.
    + eapply (Hbody _ (systemError "EISDIR" (path_join H d u)) w);
        [|apply sameSent_refl|exact Hs|reflexivity|reflexivity].
      erewrite bind_normal; [|reflexivity].
      erewrite bind_normal;
        [|unfold tryCatch, bind, lift, stat; rewrite Hfs; reflexivity].
      cbv beta iota. apply bind_throw. unfold lift, readFile. now rewrite Hfs.
    + eapply (Hbody _ headersSentError
                (setRes (mkResponse 404 (headers (res w)) (sentHead (res w))
                           (body (res w)) (finished (res w))) w));
        [|repeat split|exact Hs|reflexivity|reflexivity].
      erewrite bind_normal; [|reflexivity].
      erewrite bind_normal;
        [|unfold tryCatch, bind, lift, stat; rewrite Hfs; reflexivity].
      cbv beta iota.
      erewrite bind_normal; [|reflexivity].
      apply bind_throw. unfold res_setHeader, onRes, setHeader.
      change (headersSent (res (setRes _ w))) with (headersSent (res w)).
      now rewrite Hs.
  - eapply (Hbody _ _ w); [|apply sameSent_refl|exact Hs|reflexivity|reflexivity].
    apply bind_throw. reflexivity.
Qed.

(** X5.  When the headers of the response have been sent already (a handler
    answered and called the continuation), [defaultHandler] changes nothing
    of what is on the wire: body, sent head, headers and the finished mark
    stay, and the call ends by throwing the headers-sent error, whichever
    branch it takes. *)
Theorem defaultHandler_after_headers_sent (H : Host) (req : Request)
  (dir d : option string) (u : string) (addSocket : bool) (w : World) :
  candidate H (this w) req dir = Some (d, u) ->
  headersSent (res w) = true ->
  fst (defaultHandler H req dir addSocket w) = Throw headersSentError
  /\ sameSent (res w) (res (snd (defaultHandler H req dir addSocket w))).
Proof.
  intros Hc Hs. rewrite (defaultHandler_resolve H req dir d u addSocket w Hc).
  destruct (resolve_sent H d u addSocket
              (mkWorld (this w) (console w) (res w) (trace w ++ [DefaultHandlerCalled]))
              Hs) as (w' & -> & Hsame & _).
  split; [reflexivity|exact Hsame].
Qed.

Lemma defaultHandler_after_headers_sent_witness :
  fst (defaultHandler exampleHost (mkRequest "/index.html" "GET") None true
         (setRes (endWith "done" freshResponse) (started (Some emptyConfig))))
  = Throw headersSentError
  /\ body (res (snd (defaultHandler exampleHost (mkRequest "/index.html" "GET") None true
                       (setRes (endWith "done" freshResponse)
                          (started (Some emptyConfig))))))
     = "done".
Proof.
  destruct (defaultHandler_after_headers_sent exampleHost
              (mkRequest "/index.html" "GET") None (Some "site") "/index.html" true
              (setRes (endWith "done" freshResponse) (started (Some emptyConfig)))
              eq_refl eq_refl) as (H1 & _ & H2 & _).
  split; [exact H1|exact H2].
Defined.

(** ** Falling through to the static files *)

Lemma getHeader_putHeader_other (n n' v : string) (hs : list (string * string)) :
  n <> n' -> getHeader n (putHeader n' v hs) = getHeader n hs.
Proof.
  intros Hn. induction hs as [|[k v'] hs IH]; simpl.
  - apply not_eq_sym in Hn. apply String.eqb_neq in Hn. now rewrite Hn.
  - destruct (String.eqb k n') eqn:Hk; simpl.
    + apply String.eqb_eq in Hk. subst k.
      apply not_eq_sym in Hn. apply String.eqb_neq in Hn. now rewrite Hn.
    + destruct (String.eqb k n); [reflexivity|exact IH].
Qed.

(** Handlers that all call the continuation are run to the last one. *)
Lemma runChain_passes_all (req : Request) (ms : list Middleware) :
  forall (k : nat) (next : Next) (w : World) (r1 : Response),
    passes req ms (res w) = Some r1 ->
    exists logs evs nx,
      runChain req ms k next w
      = (Normal nx, mkWorld (this w) (console w ++ logs) r1 (trace w ++ evs))
      /\ (ms = [] \/ status nx = true)
      /\ allContinued evs /\ length evs = length ms.
Proof.
  induction ms as [|mw ms IH]; intros k next w r1 Hp.
  - simpl in Hp. injection Hp as <-. exists [], [], next. split.
    + simpl. unfold ret. rewrite !app_nil_r. now destruct w.
    + split; [now left|]. split; [intros ev []|reflexivity].
  - simpl in Hp. rewrite runChain_step.
    set (run := mw req (res w) (reset generateNext)) in *.
    assert (Hst : status (hr_next run) = true
                  /\ passes req ms (hr_res run) = Some r1
                  /\ hr_outcome run <> Pending).
    { destruct (hr_outcome run); try discriminate;
        (destruct (status (hr_next run)); [|discriminate]);
        (split; [reflexivity|split; [exact Hp|discriminate]]). }
    destruct Hst as (Hst & Hrest & Hnp).
    destruct (IH (S k) (hr_next run) (afterRun k run w) r1 Hrest)
      as (logs & evs & nx & Hrun & Hnx & Hall & Hlen).
    assert (Hgoal : exists logs0 evs0 nx0,
              runChain req ms (S k) (hr_next run) (afterRun k run w)
              = (Normal nx0, mkWorld (this w) (console w ++ logs0) r1 (trace w ++ evs0))
              /\ (mw :: ms = [] \/ status nx0 = true)
              /\ allContinued evs0 /\ length evs0 = length (mw :: ms)).
    { rewrite Hrun. unfold afterRun. rewrite Hst. simpl.
      exists (match hr_outcome run with Rejected e => LogError e :: logs | _ => logs end),
             (Ran k true (finished (hr_res run)) :: evs), nx.
      split.
      - destruct (hr_outcome run); rewrite <- ?app_assoc; reflexivity.
      - split.
        + right. destruct Hnx as [-> | Hnx]; [|exact Hnx].
          simpl in Hrun. unfold ret in Hrun. injection Hrun as <- _. exact Hst.
        + split; [now apply allContinued_cons|simpl; now rewrite Hlen]. }
    rewrite Hst. simpl negb. cbv iota.
    destruct (hr_outcome run); [exact Hgoal|exact Hgoal|now destruct Hnp].
Qed.

(** When every matched handler calls the continuation, or none matches, the
    listener is [defaultHandler] on the response the handlers leave. *)
Lemma listener_fallthrough (H : Host) (req : Request) (w : World) (r1 : Response) :
  passes req (matchingHandlers H req w) (res w) = Some r1 ->
  exists logs evs,
    listener H req w
    = defaultHandler H req None true
        (mkWorld (setMiddlewares
                    (fst (filterMatching (engine H) (url req) (middlewares (this w))))
                    (this w))
           (console w ++ logs) r1 (trace w ++ evs))
    /\ allContinued evs /\ length evs = length (matchingHandlers H req w).
Proof.
  intros Hp. rewrite listener_unfold. set (w0 := setThis _ w).
  destruct (runChain_passes_all req (matchingHandlers H req w) 0 generateNext w0 r1 Hp)
    as (logs & evs & nx & -> & Hnx & Hall & Hlen).
  exists logs, evs. split; [|auto].
  destruct Hnx as [-> | ->]; [reflexivity|]. now rewrite orb_true_r.
Qed.

(** X15.  When every matched handler calls the continuation, the static
    answer is built on the response they leave: the listener returns
    normally, and every header a handler has set, other than the content
    type, is among the headers sent, whether the answer is the file, the 404
    page or the 500 page. *)
Theorem fallthrough_keeps_headers (H : Host) (req : Request) (w : World)
  (r1 : Response) (d : option string) (u : string) :
  passes req (matchingHandlers H req w) (res w) = Some r1 ->
  unsent r1 ->
  candidate H (this w) req None = Some (d, u) ->
  fst (listener H req w) = Normal tt
  /\ exists code hs,
       sentHead (res (snd (listener H req w))) = Some (code, hs)
       /\ (code = 200 \/ code = 404 \/ code = 500)%Z
       /\ forall n, n <> "content-type" -> getHeader n hs = getHeader n (headers r1).
Proof.
  intros Hp Hun Hc.
  destruct (listener_fallthrough H req w r1 Hp) as (logs & evs & -> & _).
  set (w1 := mkWorld _ _ r1 _).
  destruct (defaultHandler_answers H req None d u true w1 Hc Hun)
    as (code & ct & content & logs' & -> & Hcode).
  simpl. split; [reflexivity|]. eexists _, _. split; [reflexivity|].
  split; [exact Hcode|]. intros n Hn. now apply getHeader_putHeader_other.
Qed.

Lemma fallthrough_keeps_headers_witness :
  exists code hs,
    sentHead (res (snd (listener exampleHost (mkRequest "/index.html" "GET")
                          (started (Some (withMiddlewares
                             [mkStackConfig passOn None]))))))
    = Some (code, hs)
    /\ (code = 200 \/ code = 404 \/ code = 500)%Z.
Proof.
  destruct (fallthrough_keeps_headers exampleHost (mkRequest "/index.html" "GET")
              (started (Some (withMiddlewares [mkStackConfig passOn None])))
              freshResponse (Some "site") "/index.html"
              eq_refl (conj eq_refl eq_refl) eq_refl)
    as (_ & code & hs & Hs & Hcode & _).
  exists code, hs. split; [exact Hs|exact Hcode].
Defined.

Lemma dropChars_app (p s : string) : dropChars (String.length p) (p ++ s) = s.
Proof. induction p as [|c p IH]; simpl; [now destruct s|exact IH]. Qed.



Lemma string_length_app (a b : string) :
  String.length (a ++ b) = String.length a + String.length b.
Proof. induction a as [|c a IH]; simpl; [reflexivity|now rewrite IH]. Qed.

Lemma string_app_assoc (a b c : string) : (a ++ b) ++ c = a ++ b ++ c.
Proof. induction a as [|x a IH]; simpl; [reflexivity|now rewrite IH]. Qed.

(** The model of [endsWith] says what it should. *)
Lemma endsWith_app (p suffix : string) : endsWith (p ++ suffix) suffix = true.
Proof.
  unfold endsWith. rewrite string_length_app.
  replace (String.length p + String.length suffix - String.length suffix)
    with (String.length p) by lia.
  rewrite dropChars_app, String.eqb_refl. simpl. apply Nat.leb_le. lia.
Qed.

(** X6.  A request no registered handler matches whose URL path ends in a
    slash is answered, on a server without subfolder, with the file
    [index.html] of that directory: status 200, the type the table gives for
    the path with [index.html] appended, and the file with the reload
    scripts injected when that type is [text/html]. *)
Theorem directory_index_served (H : Host) (req : Request) (w : World)
  (p d file : string) (l : list MimeType) :
  matchingHandlers H req w = [] ->
  url_pathname H (url req) = Some (p ++ "/") ->
  subfolder (this w) = None ->
  directory (this w) = Some d ->
  mimeTypes (this w) = Some l ->
  fs H (path_join H d (p ++ "/" ++ "index.html")) = Some (RegularFile file) ->
  fst (serve H req w) = Normal tt
  /\ res (snd (serve H req w))
     = answered freshResponse 200 (mimeOf H l (p ++ "/" ++ "index.html"))
         (payload H (mimeOf H l (p ++ "/" ++ "index.html")) file true).
Proof.
  intros Hmatch Hurl Hsub Hdir Hm Hfs.
  unfold serve, bind, modify. simpl.
  set (w0 := setRes freshResponse w).
  assert (Hp : passes req (matchingHandlers H req w0) (res w0) = Some freshResponse).
  { change (matchingHandlers H req w0) with (matchingHandlers H req w).
    now rewrite Hmatch. }
  destruct (listener_fallthrough H req w0 freshResponse Hp) as (logs & evs & -> & _).
  set (w1 := mkWorld _ _ freshResponse _).
  assert (Hc : candidate H (this w1) req None
               = Some (Some d, p ++ "/" ++ "index.html")).
  { unfold candidate. rewrite Hurl. simpl this. cbn [subfolder directory setMiddlewares].
    rewrite Hsub, Hdir. simpl truthyString. cbv iota.
    rewrite endsWith_app. now rewrite string_app_assoc. }
  rewrite (defaultHandler_resolve H req None (Some d) _ true w1 Hc).
  rewrite (resolve_file_logs H d _ file true l
             (mkWorld (this w1) (console w1) (res w1)
                (trace w1 ++ [DefaultHandlerCalled]))
             Hfs Hm (conj eq_refl eq_refl)).
  split; reflexivity.
Qed.

Lemma directory_index_served_witness :
  res (snd (serve exampleHost (mkRequest "/" "GET") (started (Some emptyConfig))))
  = answered freshResponse 200 "text/html"
      (payload exampleHost "text/html" "<p>hi</p>" true).
Proof.
  apply (directory_index_served exampleHost (mkRequest "/" "GET")
           (started (Some emptyConfig)) EmptyString "site" "<p>hi</p>" exampleMimes);
    reflexivity.
Defined.

(** ** The subfolder *)







(** ** Construction with handlers *)

Lemma addMiddleware_cases (E : Engine) (mw : Middleware) (route : option string)
  (s : ParvusServer) :
  if validRoute E (routeOrDefault route)
  then exists p, addMiddleware E mw route s = (Normal tt, pushed p mw s)
  else exists e, addMiddleware E mw route s = (Throw e, s).
Proof.
  unfold validRoute, addMiddleware, routeOrDefault.
  set (r := match route with Some r => r | None => "*" end).
  unfold bind, lift, ret, modify.
  destruct (String.eqb r "*") eqn:Hr; simpl.
  - now exists MatchAll.
  - rewrite stringToRegex_arguments. unfold newRegExp.
    destruct (re_valid E (fst (routeArguments r)) (snd (routeArguments r)));
      eexists; reflexivity.
Qed.

Lemma register_all (E : Engine) (ms : list StackConfig) :
  forall s,
    if forallb (validStack E) ms
    then exists s',
           forEach ms (fun x => addMiddleware E (sc_middleware x) (sc_route x)) s
           = (Normal tt, s')
           /\ map middleware (middlewares s')
              = (map middleware (middlewares s) ++ map sc_middleware ms)%list
    else exists e s',
           forEach ms (fun x => addMiddleware E (sc_middleware x) (sc_route x)) s
           = (Throw e, s').
Proof.
  induction ms as [|x ms IH]; intros s; simpl.
  - exists s. split; [reflexivity|now rewrite app_nil_r].
  - pose proof (addMiddleware_cases E (sc_middleware x) (sc_route x) s) as Hx.
    unfold validStack at 1. unfold bind.
    destruct (validRoute E (routeOrDefault (sc_route x))); simpl.
    + destruct Hx as (p & ->). specialize (IH (pushed p (sc_middleware x) s)).
      destruct (forallb (validStack E) ms).
      * destruct IH as (s' & -> & Hs'). exists s'. split; [reflexivity|].
        rewrite Hs'. simpl. rewrite map_app. simpl. now rewrite <- app_assoc.
      * destruct IH as (e & s' & ->). eauto.
    + destruct Hx as (e & ->). eauto.
Qed.

(** X8.  Construction with a config succeeds exactly when the engine takes
    every configured route; the registry then holds the configured handlers,
    all of them, in the order of the config.  One refused route makes the
    constructor throw: no server object comes out of it. *)
Theorem constructor_registers (E : Engine) (c : Config) :
  (forallb (validStack E) (configured c) = true ->
   exists s,
     newParvusServer E (Some c) = Normal s
     /\ map middleware (middlewares s) = map sc_middleware (configured c))
  /\ (forallb (validStack E) (configured c) = false ->
      exists e, newParvusServer E (Some c) = Throw e).
Proof.
  unfold newParvusServer, constructor, configured.
  destruct (cfg_middlewares c) as [ms|].
  - pose proof (register_all E ms
                  (setSubfolder (cfg_subfolder c)
                     (setDirectory (Some (orString (cfg_directory c) "site"))
                        (setPort (Some (orNumber (cfg_port c) 62295))
                           (setHost (Some (orString (cfg_host c) "localhost"))
                              fieldInitializers))))) as Hreg.
    unfold bind, modify. cbn beta iota.
    destruct (forallb (validStack E) ms).
    + destruct Hreg as (s' & Hrun & Hs'). rewrite Hrun.
      split; [|discriminate]. intros _.
      eexists. split; [reflexivity|]. simpl. exact Hs'.
    + destruct Hreg as (e & s' & Hrun). rewrite Hrun.
      split; [discriminate|]. intros _. eexists. reflexivity.
  - simpl. split; [|discriminate]. intros _. eexists. split; reflexivity.
Qed.

Lemma constructor_registers_witness :
  (exists s,
     newParvusServer literalEngine
       (Some (withMiddlewares [mkStackConfig passOn None;
                               mkStackConfig silent (Some "/mw")])) = Normal s
     /\ map middleware (middlewares s) = [passOn; silent])
  /\ (exists e,
        newParvusServer literalEngine
          (Some (withMiddlewares [mkStackConfig passOn None;
                                  mkStackConfig silent (Some "(")])) = Throw e).
Proof.
  split.
  - apply (proj1 (constructor_registers literalEngine
                    (withMiddlewares [mkStackConfig passOn None;
                                      mkStackConfig silent (Some "/mw")]))).
    reflexivity.
  - apply (proj2 (constructor_registers literalEngine
                    (withMiddlewares [mkStackConfig passOn None;
                                      mkStackConfig silent (Some "(")]))).
    reflexivity.
Defined.

(** ** The reload signal *)




(** ** Disconnections *)

Section FreshClient.
Context (id : nat) (cl : list Client).
Hypothesis fresh : ~ In id (map sid cl).

Lemma fresh_sid (c : Client) : In c cl -> Nat.eqb (sid c) id = false.
Proof.
  intros Hin. apply Nat.eqb_neq. intros Heq. apply fresh.
  rewrite <- Heq. now apply in_map.
Qed.

Lemma fresh_no_listener (f : Client -> Client) :
  (forall c, sid (f c) = sid c) ->
  existsb (fun c => Nat.eqb (sid c) id && logsDisconnect c) (map f cl) = false.
Proof.
  intros Hf. apply not_true_is_false. intros Hex.
  apply existsb_exists in Hex as (c' & Hin & Hc).
  apply in_map_iff in Hin as (c & <- & Hin).
  rewrite Hf, (fresh_sid c Hin) in Hc. discriminate.
Qed.

Lemma fresh_kept (f : Client -> Client) :
  (forall c, sid (f c) = sid c) ->
  filter (fun c => negb (Nat.eqb (sid c) id)) (map f cl) = map f cl.
Proof.
  intros Hf. apply forallb_filter_id. apply forallb_forall. intros c' Hin.
  apply in_map_iff in Hin as (c & <- & Hin). now rewrite Hf, (fresh_sid c Hin).
Qed.

Lemma fresh_kept_all : filter (fun c => negb (Nat.eqb (sid c) id)) cl = cl.
Proof.
  apply forallb_filter_id. apply forallb_forall. intros c Hin.
  now rewrite (fresh_sid c Hin).
Qed.

Lemma fresh_listenTo : map (listenTo id) cl = cl.
Proof.
  rewrite <- (map_id cl) at 2. apply map_ext_in. intros c Hin.
  unfold listenTo. now rewrite (fresh_sid c Hin).
Qed.

End FreshClient.

Lemma connect_first_state (w : World) (id : nat) (sock : Socket) :
  io (this w) = Some sock -> connectedBefore (this w) = false ->
  console (snd (connect id w)) = (console w ++ [Log "Asking browser to refresh"])%list
  /\ io (this (snd (connect id w)))
     = Some (mkSocket (map (deliver "refresh")
                         (clients sock ++ [mkClient id [] false]))).
Proof.
  intros Hio Hcb.
  unfold connect, connectionCallback, refreshBrowser, onThis, bind, get, modify,
    logEntry, record, throw.
  rewrite Hio. simpl. rewrite Hcb. simpl. split; reflexivity.
Qed.

Lemma connect_later_state (w : World) (id : nat) (sock : Socket) :
  io (this w) = Some sock -> connectedBefore (this w) = true ->
  console (snd (connect id w)) = (console w ++ [Log "The browser is listening"])%list
  /\ io (this (snd (connect id w)))
     = Some (mkSocket (map (listenTo id)
                         (clients sock ++ [mkClient id [] false]))).
Proof.
  intros Hio Hcb.
  unfold connect, connectionCallback, refreshBrowser, onThis, bind, get, modify,
    logEntry, record, throw.
  rewrite Hio. cbn -[listenTo]. rewrite Hcb. cbn -[listenTo]. split; reflexivity.
Qed.

Lemma disconnect_state (w : World) (id : nat) (sock : Socket) :
  io (this w) = Some sock ->
  console (snd (disconnect id w))
  = (console w
     ++ if existsb (fun c => Nat.eqb (sid c) id && logsDisconnect c) (clients sock)
        then [Log "The browser disconnected"] else [])%list
  /\ io (this (snd (disconnect id w)))
     = Some (mkSocket (filter (fun c => negb (Nat.eqb (sid c) id)) (clients sock))).
Proof.
  intros Hio.
  unfold disconnect, onThis, bind, get, modify, logEntry, ret.
  rewrite Hio.
  destruct (existsb _ _); simpl; [|rewrite app_nil_r]; split; reflexivity.
Qed.

(** X10.  The first client ever to connect gets no [disconnect] listener:
    its connection is logged only as the refresh request and its
    disconnection is not logged at all; a client that connects later is
    logged as listening and, when it leaves, as disconnected.  Either way the
    client is gone from the connected clients afterwards and the others
    remain. *)
Theorem disconnect_logging (w : World) (id : nat) (sock : Socket) :
  io (this w) = Some sock ->
  ~ In id (map sid (clients sock)) ->
  (connectedBefore (this w) = false ->
   console (snd (disconnect id (snd (connect id w))))
   = (console w ++ [Log "Asking browser to refresh"])%list)
  /\ (connectedBefore (this w) = true ->
      console (snd (disconnect id (snd (connect id w))))
      = (console w ++ [Log "The browser is listening";
                       Log "The browser disconnected"])%list)
  /\ exists sock',
       io (this (snd (disconnect id (snd (connect id w))))) = Some sock'
       /\ map sid (clients sock') = map sid (clients sock).
Proof.
  intros Hio Hfresh.
  assert (Hsid : forall c, sid (deliver "refresh" c) = sid c) by reflexivity.
  destruct (connectedBefore (this w)) eqn:Hcb.
  - destruct (connect_later_state w id sock Hio Hcb) as (Hc & Hi).
    destruct (disconnect_state _ id _ Hi) as (Hc' & Hi').
    rewrite Hc', Hi', Hc. cbn [clients]. rewrite map_app, existsb_app, filter_app.
    rewrite (fresh_listenTo id _ Hfresh).
    rewrite (fresh_kept_all id _ Hfresh).
    unfold listenTo. simpl. rewrite Nat.eqb_refl. simpl. rewrite Nat.eqb_refl.
    simpl. rewrite orb_true_r, app_nil_r.
    split; [discriminate|]. split.
    + intros _. now rewrite <- app_assoc.
    + eexists. split; reflexivity.
  - destruct (connect_first_state w id sock Hio Hcb) as (Hc & Hi).
    destruct (disconnect_state _ id _ Hi) as (Hc' & Hi').
    rewrite Hc', Hi', Hc. cbn [clients]. rewrite map_app, existsb_app, filter_app.
    rewrite (fresh_no_listener id _ Hfresh _ Hsid), (fresh_kept id _ Hfresh _ Hsid).
    simpl. rewrite Nat.eqb_refl. simpl. rewrite !app_nil_r.
    split; [reflexivity|]. split; [discriminate|].
    eexists. split; [reflexivity|]. simpl. rewrite map_map. reflexivity.
Qed.

Lemma disconnect_logging_witness :
  console (snd (disconnect 7 (snd (connect 7 (started (Some emptyConfig))))))
  = (console (started (Some emptyConfig)) ++ [Log "Asking browser to refresh"])%list.
Proof.
  refine (proj1 (disconnect_logging (started (Some emptyConfig)) 7 (mkSocket [])
                   eq_refl _) eq_refl).
  intros [].
Defined.

(** ** Handlers that stop the chain, and handlers that never settle *)

Lemma matching_nonempty (pre : list Middleware) (h : Middleware)
  (post : list Middleware) :
  (length (pre ++ h :: post) =? 0)%nat = false.
Proof. rewrite length_app. simpl. rewrite Nat.add_succ_r. reflexivity. Qed.

Lemma runChain_prefix (req : Request) (pre : list Middleware) :
  forall (k : nat) (next : Next) (w : World) (r1 : Response),
    passes req pre (res w) = Some r1 ->
    exists logs evs next1,
      (forall rest,
          runChain req (pre ++ rest) k next w
          = runChain req rest (k + length pre) next1
              (mkWorld (this w) (console w ++ logs) r1 (trace w ++ evs)))
      /\ allContinued evs
      /\ length evs = length pre
      /\ length logs <= length pre.
Proof.
  induction pre as [|mw pre IH]; intros k next w r1 Hp.
  - simpl in Hp. injection Hp as <-. exists [], [], next. split.
    + intros rest. simpl. rewrite Nat.add_0_r, !app_nil_r. now destruct w.
    + split; [intros ev []|]. split; [reflexivity|apply Nat.le_refl].
  - simpl in Hp. set (run := mw req (res w) (reset generateNext)) in *.
    assert (Hst : status (hr_next run) = true
                  /\ passes req pre (hr_res run) = Some r1
                  /\ hr_outcome run <> Pending).
    { destruct (hr_outcome run); try discriminate;
        (destruct (status (hr_next run)); [|discriminate]);
        (split; [reflexivity|split; [exact Hp|discriminate]]). }
    destruct Hst as (Hst & Hrest & Hnp).
    destruct (IH (S k) (hr_next run) (afterRun k run w) r1 Hrest)
      as (logs & evs & next1 & Hrun & Hall & Hlen & Hlogs).
    exists (match hr_outcome run with Rejected e => LogError e :: logs | _ => logs end),
      (Ran k true (finished (hr_res run)) :: evs), next1.
    split; [|split; [|split]].
    + intros rest. simpl app. rewrite runChain_step. fold run. rewrite Hst.
      simpl negb. cbv iota.
      assert (Hgo : runChain req (pre ++ rest) (S k) (hr_next run) (afterRun k run w)
                    = runChain req rest (k + length (mw :: pre)) next1
                        (mkWorld (this w)
                           (console w ++
                            match hr_outcome run with
                            | Rejected e => LogError e :: logs
                            | _ => logs
                            end) r1
                           (trace w ++ Ran k true (finished (hr_res run)) :: evs))).
      { rewrite Hrun. unfold afterRun. rewrite Hst. simpl length.
        rewrite Nat.add_succ_r. cbn [this console trace plus].
        destruct (hr_outcome run); rewrite <- !app_assoc; reflexivity. }
      destruct (hr_outcome run); [exact Hgo|exact Hgo|now destruct Hnp].
    + now apply allContinued_cons.
    + simpl. now rewrite Hlen.
    + destruct (hr_outcome run); simpl; lia.
Qed.

(** X11.  A matched handler that returns without having called the
    continuation ends the request: the listener returns, the response is
    exactly as that handler left it, nothing is logged for it, no handler
    after it runs and [defaultHandler] is not entered, whether or not the
    handler wrote anything. *)
Theorem handler_return_stops_chain (H : Host) (req : Request) (w : World)
  (pre : list Middleware) (h : Middleware) (post : list Middleware)
  (r1 : Response) :
  matchingHandlers H req w = (pre ++ h :: post)%list ->
  passes req pre (res w) = Some r1 ->
  hr_outcome (h req r1 (reset generateNext)) = Fulfilled ->
  status (hr_next (h req r1 (reset generateNext))) = false ->
  fst (listener H req w) = Normal tt
  /\ res (snd (listener H req w)) = hr_res (h req r1 (reset generateNext))
  /\ exists logs evs,
       console (snd (listener H req w)) = (console w ++ logs)%list
       /\ length logs <= length pre
       /\ trace (snd (listener H req w))
          = (trace w ++ evs
             ++ [Ran (length pre) false
                   (finished (hr_res (h req r1 (reset generateNext))))])%list
       /\ allContinued evs
       /\ length evs = length pre.
Proof.
  intros Hmatch Hp Hout Hst. rewrite listener_unfold, Hmatch.
  set (w0 := setThis _ w).
  destruct (runChain_prefix req pre 0 generateNext w0 r1 Hp)
    as (logs & evs & next1 & Hrun & Hall & Hlen & Hlogs).
  rewrite (Hrun (h :: post)), runChain_step. cbn [res Nat.add].
  set (run := h req r1 (reset generateNext)) in *. rewrite Hout, Hst.
  simpl negb. cbv iota. rewrite Hst, matching_nonempty. simpl orb. cbv iota.
  unfold afterRun. rewrite Hout, Hst. cbn [fst snd res console trace].
  unfold w0. cbn [console trace setThis].
  split; [reflexivity|]. split; [reflexivity|].
  exists logs, evs. split; [reflexivity|]. split; [exact Hlogs|].
  split; [now rewrite <- app_assoc|]. split; assumption.
Qed.

Lemma handler_return_stops_chain_witness :
  fst (listener exampleHost (mkRequest "/a" "GET")
         (started (Some (withMiddlewares
            [mkStackConfig passOn None;
             mkStackConfig (respond "x") None;
             mkStackConfig (throwAtOnce boom) None]))))
  = Normal tt.
Proof.
  refine (proj1 (handler_return_stops_chain exampleHost (mkRequest "/a" "GET")
                   (started (Some (withMiddlewares
                      [mkStackConfig passOn None;
                       mkStackConfig (respond "x") None;
                       mkStackConfig (throwAtOnce boom) None])))
                   [passOn] (respond "x") [throwAtOnce boom] freshResponse
                   _ _ _ _));
    vm_compute; reflexivity.
Defined.

(** X12.  A matched handler whose promise never settles stalls the request:
    the listener never returns, the response stays as that handler left it,
    the handler leaves no event of having run to completion, no handler after
    it runs and [defaultHandler] is not entered. *)
Theorem pending_handler_stalls (H : Host) (req : Request) (w : World)
  (pre : list Middleware) (h : Middleware) (post : list Middleware)
  (r1 : Response) :
  matchingHandlers H req w = (pre ++ h :: post)%list ->
  passes req pre (res w) = Some r1 ->
  hr_outcome (h req r1 (reset generateNext)) = Pending ->
  fst (listener H req w) = Hang
  /\ res (snd (listener H req w)) = hr_res (h req r1 (reset generateNext))
  /\ exists evs,
       trace (snd (listener H req w)) = (trace w ++ evs)%list
       /\ allContinued evs
       /\ length evs = length pre.
Proof.
  intros Hmatch Hp Hout. rewrite listener_unfold, Hmatch.
  set (w0 := setThis _ w).
  destruct (runChain_prefix req pre 0 generateNext w0 r1 Hp)
    as (logs & evs & next1 & Hrun & Hall & Hlen & Hlogs).
  rewrite (Hrun (h :: post)), runChain_step. cbn [res Nat.add].
  set (run := h req r1 (reset generateNext)) in *. rewrite Hout.
  cbn [fst snd res console trace setRes]. unfold w0. cbn [trace setThis].
  split; [reflexivity|]. split; [reflexivity|].
  exists evs. split; [reflexivity|]. split; assumption.
Qed.

Lemma pending_handler_stalls_witness :
  fst (listener exampleHost (mkRequest "/a" "GET")
         (started (Some (withMiddlewares
            [mkStackConfig passOn None;
             mkStackConfig stall None;
             mkStackConfig (respond "x") None]))))
  = Hang.
Proof.
  refine (proj1 (pending_handler_stalls exampleHost (mkRequest "/a" "GET")
                   (started (Some (withMiddlewares
                      [mkStackConfig passOn None;
                       mkStackConfig stall None;
                       mkStackConfig (respond "x") None])))
                   [passOn] stall [respond "x"] freshResponse
                   _ _ _));
    vm_compute; reflexivity.
Defined.

(** ** Starting *)


(** ** The merged table as the resolver reads it *)




